(** * LodeApp (src/application.js): a shallow embedding and its properties

    The application class of the LODE viewer wires a map, a legend, an
    opacity slider, a search box, a menu and a table together.  Every
    method of the class is embedded below as a computation over the
    fields of [this], the persisted [Store] and the live map; the calls
    it makes to its collaborators are collected, in program order, as a
    list of [Effect]s. *)

From Stdlib Require Import String List Bool Arith Lia PrimFloat.
Import ListNotations.
Local Open Scope string_scope.
Local Open Scope list_scope.

Set Implicit Arguments.
Set Warnings "-register-all,-inexact-float".

(** ** JavaScript values *)

Module JS.

(** The JSON-shaped values the configuration, the events and the
    persisted store carry.  Numbers are IEEE binary64, as in the
    language.  A string is the sequence of its UTF-16 code units, one
    [ascii] for each: the strings that are values here are those whose
    code units are all below 256. *)
Inductive jsval : Type :=
| JUndefined
| JNull
| JBool (b : bool)
| JNum (n : float)
| JStr (s : string)
| JArr (elts : list jsval)
| JObj (props : list (string * jsval)).

(** What a failing statement throws: a thrown value ([throw 'text'])
    or the TypeError of a member access on [undefined]/[null] or of a
    call of something that is not a function. *)
Inductive exn : Type :=
| Thrown (v : jsval)
| TypeError (where_ : string).

(** [+0], [-0] and [NaN] are the falsy numbers. *)
Definition number_falsy (n : float) : bool :=
  (PrimFloat.eqb n 0 || negb (PrimFloat.eqb n n))%bool.

(** ToBoolean: what [if (v)], [!v] and [&&] test. *)
Definition truthy (v : jsval) : bool :=
  match v with
  | JUndefined | JNull => false
  | JBool b => b
  | JNum n => negb (number_falsy n)
  | JStr s => negb (String.eqb s "")
  | JArr _ | JObj _ => true
  end.

Definition nullish (v : jsval) : bool :=
  match v with
  | JUndefined | JNull => true
  | _ => false
  end.

(** First binding of a key in a property list. *)
Fixpoint assoc {A : Type} (k : string) (l : list (string * A)) : option A :=
  match l with
  | [] => None
  | (k', a) :: r => if String.eqb k k' then Some a else assoc k r
  end.

(** [v.k] on a value that is not [undefined]/[null]: an own property
    of an object, [undefined] for anything else (no configuration
    value is read through a prototype here). *)
Definition member (v : jsval) (k : string) : jsval :=
  match v with
  | JObj ps => match assoc k ps with Some x => x | None => JUndefined end
  | _ => JUndefined
  end.

(** [v.k] in general: [None] stands for the TypeError. *)
Definition get (v : jsval) (k : string) : option jsval :=
  if nullish v then None else Some (member v k).

(** [a && b] on already evaluated operands is [a] when falsy. *)
Definition and_then (a : jsval) (b : jsval -> jsval) : jsval :=
  if truthy a then b a else a.

Definition digit (n : nat) : string :=
  match n with
  | 0 => "0" | 1 => "1" | 2 => "2" | 3 => "3" | 4 => "4"
  | 5 => "5" | 6 => "6" | 7 => "7" | 8 => "8" | _ => "9"
  end.

(** [v[i]] for a literal index [i < 10]: an array element, a
    code unit of a string (its [i]-th [ascii]), the property named by the digit on an
    object, [undefined] past the end or on other primitives, and the
    TypeError ([None]) on [undefined]/[null]. *)
Definition index (v : jsval) (i : nat) : option jsval :=
  match v with
  | JUndefined | JNull => None
  | JArr l => Some (nth i l JUndefined)
  | JStr s => Some (match String.get i s with
                    | Some c => JStr (String c EmptyString)
                    | None => JUndefined
                    end)
  | JObj _ => Some (member v (digit i))
  | _ => Some JUndefined
  end.

Section ToString.

(** Number::toString is left to the language runtime. *)
Variable NumberToString : float -> string.

(** ToString, as a template literal applies it to a substitution. *)
Fixpoint ToString (v : jsval) : string :=
  match v with
  | JUndefined => "undefined"
  | JNull => "null"
  | JBool true => "true"
  | JBool false => "false"
  | JNum n => NumberToString n
  | JStr s => s
  | JArr l =>
      (fix join (l : list jsval) : string :=
         match l with
         | [] => ""
         | x :: r =>
             let sx := if nullish x then "" else ToString x in
             match r with
             | [] => sx
             | _ => (sx ++ "," ++ join r)%string
             end
         end) l
  | JObj _ => "[object Object]"
  end.

End ToString.

End JS.
Import JS.

(** ** The data the application holds *)

(** A map definition, as read through the getters the application
    uses ([this.current.Style], [.DataSources], ...). *)
Record MapDefinition : Type := mkMapDefinition {
  Style : jsval;
  DataSources : jsval;
  Layers : jsval;
  Legend : jsval;
  FullTitle : jsval;
  Subtitle : jsval;
  LayerIDs : jsval;
  ClickableLayersIDs : jsval;
  Fields : jsval;
  TableUrl : jsval
}.

(** [config.search] *)
Record SearchConfig : Type := mkSearchConfig {
  items : jsval;
  color : jsval;
  field : jsval;
  layer : jsval
}.

(** [config]: the catalog [maps] lists its entries in the order the
    language enumerates the properties of the object. *)
Record Config : Type := mkConfig {
  credentials : jsval;
  maps : list (string * MapDefinition);
  search : SearchConfig;
  bookmarks : jsval
}.

(** Modelled from the spec: [Store], the durable key/value store of
    the view state (activeMapId, centerLat, centerLng, zoomLevel,
    opacityLevel); a key reads back what was last written to it. *)
Record StoreT : Type := mkStore {
  Store_Map : jsval;
  Store_Lat : jsval;
  Store_Lng : jsval;
  Store_Zoom : jsval;
  Store_Opacity : jsval
}.

Inductive StoreKey : Type := K_Map | K_Lat | K_Lng | K_Zoom | K_Opacity.

Definition Store_write (k : StoreKey) (v : jsval) (s : StoreT) : StoreT :=
  match k with
  | K_Map => mkStore v (Store_Lat s) (Store_Lng s) (Store_Zoom s) (Store_Opacity s)
  | K_Lat => mkStore (Store_Map s) v (Store_Lng s) (Store_Zoom s) (Store_Opacity s)
  | K_Lng => mkStore (Store_Map s) (Store_Lat s) v (Store_Zoom s) (Store_Opacity s)
  | K_Zoom => mkStore (Store_Map s) (Store_Lat s) (Store_Lng s) v (Store_Opacity s)
  | K_Opacity => mkStore (Store_Map s) (Store_Lat s) (Store_Lng s) (Store_Zoom s) v
  end.

(** The legend control: what it was last built or reloaded from, and
    the toggles the user has made since ([None]: none yet). *)
Record LegendControl : Type := mkLegend {
  lg_config : jsval;
  lg_title : jsval;
  lg_banner : jsval;
  lg_subtitle : jsval;
  lg_state : option jsval
}.

Record OpacityControl : Type := mkOpacity {
  op_value : jsval;
  op_title : option string;
  op_label : option string
}.

(** [this.group] *)
Record Group : Type := mkGroup {
  legend : LegendControl;
  opacity : OpacityControl
}.

(** What the styling calls of the map take as their legend: the legend
    control, or the literal object the search handler builds. *)
Inductive LegendLike : Type :=
| OfControl (c : LegendControl)
| OfObject (o : jsval).

(** [this.table]: the widget built by the last completed fetch, from
    the map definition current at that moment and the fetched result. *)
Record TableWidget : Type := mkTable {
  table_of : MapDefinition;
  table_result : jsval
}.

(** A rendered feature, as the hit test returns it. *)
Record Feature : Type := mkFeature {
  properties : list (string * jsval)
}.

(** [this.map.Center] *)
Record LngLat : Type := mkLngLat {
  lat : jsval;
  lng : jsval
}.

(** The live map behind [this.map]: the view the user has panned and
    zoomed to, and what is rendered under a point. *)
Record Engine : Type := mkEngine {
  Center : LngLat;
  Zoom : jsval;
  Container : jsval;
  rendered : jsval -> jsval -> list Feature
}.

(** What [this.current] holds: nothing yet ([undefined]), a map
    definition, or a value the catalog object inherits from
    [Object.prototype] under the given name (a function such as
    [toString], or the prototype itself for [__proto__]). *)
Inductive Current : Type :=
| NoCurrent
| Def (m : MapDefinition)
| Inherited (name : string).

(** The fields of [this], the store and the environment. *)
Record World : Type := mkWorld {
  this_config : Config;
  current_value : Current;
  this_map : bool;
  this_group : option Group;
  this_menu : bool;
  this_table : option TableWidget;
  Store : StoreT;
  engine : Engine;
  pending : list string
}.

Definition set_config (c : Config) (w : World) : World :=
  mkWorld c (current_value w) (this_map w) (this_group w) (this_menu w)
          (this_table w) (Store w) (engine w) (pending w).
Definition set_current_value (c : Current) (w : World) : World :=
  mkWorld (this_config w) c (this_map w) (this_group w) (this_menu w)
          (this_table w) (Store w) (engine w) (pending w).

(** [this.current], when it is a map definition. *)
Definition this_current (w : World) : option MapDefinition :=
  match current_value w with
  | Def m => Some m
  | _ => None
  end.

(** [this.current = m], for a map definition or [undefined]. *)
Definition set_current (m : option MapDefinition) (w : World) : World :=
  set_current_value (match m with Some m => Def m | None => NoCurrent end) w.
Definition set_map (b : bool) (w : World) : World :=
  mkWorld (this_config w) (current_value w) b (this_group w) (this_menu w)
          (this_table w) (Store w) (engine w) (pending w).
Definition set_group (g : option Group) (w : World) : World :=
  mkWorld (this_config w) (current_value w) (this_map w) g (this_menu w)
          (this_table w) (Store w) (engine w) (pending w).
Definition set_menu (b : bool) (w : World) : World :=
  mkWorld (this_config w) (current_value w) (this_map w) (this_group w) b
          (this_table w) (Store w) (engine w) (pending w).
Definition set_table (t : option TableWidget) (w : World) : World :=
  mkWorld (this_config w) (current_value w) (this_map w) (this_group w)
          (this_menu w) t (Store w) (engine w) (pending w).
Definition set_Store (s : StoreT) (w : World) : World :=
  mkWorld (this_config w) (current_value w) (this_map w) (this_group w)
          (this_menu w) (this_table w) s (engine w) (pending w).
Definition set_engine (e : Engine) (w : World) : World :=
  mkWorld (this_config w) (current_value w) (this_map w) (this_group w)
          (this_menu w) (this_table w) (Store w) e (pending w).
Definition set_pending (p : list string) (w : World) : World :=
  mkWorld (this_config w) (current_value w) (this_map w) (this_group w)
          (this_menu w) (this_table w) (Store w) (engine w) p.

(** ** The calls made to the collaborators *)

Inductive Handler : Type :=
| H_OnMapStyleChanged | H_OnMapMoveEnd | H_OnMapZoomEnd | H_OnMapClick
| H_OnSearchChange | H_OnLegend_Changed | H_OnOpacitySlider_Changed
| H_OnHomeClick | H_OnHelpClick | H_OnMapSelected | H_OnBookmarkSelected.

Inductive Control : Type :=
| C_map | C_fullscreen | C_navigation | C_scale | C_search | C_legend
| C_opacity | C_group | C_maps | C_bookmarks | C_menu.

(** One constructor per call the class makes on [console], [Factory],
    [Dom], [Net], the map, the controls, the table and the current map
    definition, with the arguments it passes.  A write to [Store] and
    the assignment to [this.current] (of a map definition or
    [undefined], or of a value inherited from [Object.prototype]) are
    recorded as well, so that their place among the calls can be
    stated. *)
Inductive Effect : Type :=
| Console_error (e : exn)
| Factory_Map (node : string) (token style center zoom : jsval)
| Map_SetMaxBounds (extent : jsval)
| On (source : Control) (event : string) (h : Handler)
| Map_AddSource (name data : jsval)
| Map_AddClusters (options : jsval)
| Map_AddLayer (l : jsval)
| Factory_FullscreenControl (title : string)
| Factory_NavigationControl (showCompass showZoom : bool) (titleIn titleOut : string)
| Factory_ScaleControl (units : string)
| Map_AddControl (c : Control) (position : option string)
| Factory_SearchControl (its : jsval) (placeholder title : string)
| Search_Place (node : string)
| Search_SetInputId (id : string)
| Factory_LegendControl (config title banner subtitle : jsval)
| Factory_OpacityControl (value : jsval)
| Factory_Group (g : Group)
| Opacity_SetTitle (t : string)
| Opacity_SetLabel (t : string)
| Factory_MapsListControl (catalog : list (string * MapDefinition))
| Factory_BookmarksControl (bs : jsval)
| Factory_MenuControl
| Menu_AddButton (id icon title : string) (h : Handler)
| Menu_AddPopupButton (id icon title : string) (c : Control) (container : jsval)
| Dom_Empty (node : string)
| Net_JSON (url : string)
| Current_UpdateTable (m : MapDefinition) (result : jsval)
| New_Table (node : string) (m : MapDefinition)
| Table_SetMessageHref (href : string)
| Map_UpdateMapLayersWithLegendState (ids : jsval) (lg : LegendLike) (op : jsval)
| Map_ApplyLegendStylesToMapLayers (ids : jsval) (lg : LegendLike)
| Map_FitBounds (extent : jsval) (options : option jsval)
| Dom_Click (id : string)
| Popup_Hide (button : string)
| Store_set (k : StoreKey) (v : jsval)
| Set_current (m : option MapDefinition)
| Set_current_inherited (name : string)
| Map_SetStyle (style : jsval)
| Legend_Reload (config title subtitle : jsval)
| Map_SetClickableMap
| Map_QueryRenderedFeatures (point ids : jsval)
| Map_InfoPopup (lngLat html : jsval)
| Table_UpdateTable (item : jsval).

(** ** Statements: state, thrown exceptions and the calls made *)

Inductive Completion (A : Type) : Type :=
| Normal (a : A)
| Throw (e : exn).
Arguments Throw {A} e.

Record Outcome (A : Type) : Type := mkOutcome {
  result : Completion A;
  world : World;
  effects : list Effect
}.

Definition M (A : Type) : Type := World -> Outcome A.

Definition ret {A} (a : A) : M A := fun w => mkOutcome (Normal a) w [].

Definition bind {A B} (m : M A) (f : A -> M B) : M B :=
  fun w =>
    let o := m w in
    match result o with
    | Normal a =>
        let o' := f a (world o) in
        mkOutcome (result o') (world o') (effects o ++ effects o')
    | Throw e => mkOutcome (Throw e) (world o) (effects o)
    end.

Definition throw {A} (e : exn) : M A := fun w => mkOutcome (Throw e) w [].

(** [try { body } catch (err) { handler }] *)
Definition try_catch (body : M unit) (handler : exn -> M unit) : M unit :=
  fun w =>
    let o := body w in
    match result o with
    | Normal a => o
    | Throw e =>
        let o' := handler e (world o) in
        mkOutcome (result o') (world o') (effects o ++ effects o')
    end.

Definition call (e : Effect) : M unit := fun w => mkOutcome (Normal tt) w [e].
Definition read {A} (f : World -> A) : M A := fun w => mkOutcome (Normal (f w)) w [].
Definition update (f : World -> World) : M unit := fun w => mkOutcome (Normal tt) (f w) [].

Declare Scope js_scope.
Delimit Scope js_scope with js.
Notation "x <- m ;; k" := (bind m (fun x => k))
  (at level 61, m at next level, right associativity) : js_scope.
Notation "m ;; k" := (bind m (fun _ => k))
  (at level 61, right associativity) : js_scope.
Local Open Scope js_scope.

(** A member access that throws on [undefined]/[null]. *)
Definition get_or_throw (what : string) (v : jsval) (k : string) : M jsval :=
  match get v k with
  | Some x => ret x
  | None => throw (TypeError what)
  end.

Definition index_or_throw (what : string) (v : jsval) (i : nat) : M jsval :=
  match index v i with
  | Some x => ret x
  | None => throw (TypeError what)
  end.

(** [this.map.X]: a TypeError when no map was built. *)
Definition the_map : M unit :=
  b <- read this_map ;;
  if b then ret tt else throw (TypeError "this.map").

(** The members the application reads off [this.current] ([Style],
    [DataSources], ..., [TableUrl]) when it holds a value inherited
    from [Object.prototype]: neither a function nor the prototype has
    any of them, so each reads [undefined]. *)
Definition no_members : MapDefinition :=
  mkMapDefinition JUndefined JUndefined JUndefined JUndefined JUndefined
                  JUndefined JUndefined JUndefined JUndefined JUndefined.

(** [this.current.X], for a member [X] that is read. *)
Definition the_current : M MapDefinition :=
  c <- read current_value ;;
  match c with
  | Def m => ret m
  | Inherited _ => ret no_members
  | NoCurrent => throw (TypeError "this.current")
  end.

(** [this.current.UpdateTable(...)]: a method of a map definition; a
    value inherited from [Object.prototype] has no such member and the
    call is a TypeError. *)
Definition the_current_UpdateTable : M MapDefinition :=
  c <- read current_value ;;
  match c with
  | Def m => ret m
  | Inherited _ => throw (TypeError "this.current.UpdateTable")
  | NoCurrent => throw (TypeError "this.current")
  end.

Definition the_group : M Group :=
  g <- read this_group ;;
  match g with
  | Some g => ret g
  | None => throw (TypeError "this.group")
  end.

Definition the_menu : M unit :=
  b <- read this_menu ;;
  if b then ret tt else throw (TypeError "this.menu").

Definition the_table : M TableWidget :=
  t <- read this_table ;;
  match t with
  | Some t => ret t
  | None => throw (TypeError "this.table")
  end.

(** [Store.K = v] *)
Definition Store_assign (k : StoreKey) (v : jsval) : M unit :=
  update (fun w => set_Store (Store_write k v (Store w)) w) ;;
  call (Store_set k v).

(** [for (i = 0; i < a.length; i += 1) body(a[i])] over an array the
    body does not change. *)
Fixpoint for_each {A} (body : A -> M unit) (a : list A) : M unit :=
  match a with
  | [] => ret tt
  | x :: r => body x ;; for_each body r
  end.

(** [a.map(f)] *)
Fixpoint array_map (f : jsval -> M jsval) (a : list jsval) : M (list jsval) :=
  match a with
  | [] => ret []
  | x :: r => y <- f x ;; ys <- array_map f r ;; ret (y :: ys)
  end.

(** ** The imported modules *)

(** What the application takes from the language runtime, from the
    page ([document_has id]: the document has an element with this id)
    and from the modules it imports, as far as their results enter its
    own code. *)
Class Collaborators : Type := mkCollaborators {
  NumberToString : float -> string;
  Core_root : string;
  Core_Nls : string -> string;
  Workaround_FixField : string -> jsval -> jsval;
  Other_HTMLize : list (string * jsval) -> jsval -> string -> jsval;
  document_has : string -> bool
}.

(** Modelled from the spec: [Util.FirstProperty], which yields "the
    catalog's first entry" ([undefined] for an empty object). *)
Definition Util_FirstProperty {A} (o : list (string * A)) : option A :=
  match o with
  | [] => None
  | (_, v) :: _ => Some v
  end.

Local Open Scope float_scope.

Definition maxExtent : jsval :=
  JArr [JArr [JNum (-162.0); JNum 41.0]; JArr [JNum (-32.0); JNum 83.5]].

Definition token_message : string :=
  "Mapbox access token must be provided in config.credentials.json to generate a map".

(** The names every plain object inherits from [Object.prototype]. *)
Definition Object_prototype_names : list string :=
  ["constructor"; "__defineGetter__"; "__defineSetter__"; "hasOwnProperty";
   "__lookupGetter__"; "__lookupSetter__"; "isPrototypeOf";
   "propertyIsEnumerable"; "toString"; "valueOf"; "__proto__";
   "toLocaleString"].

Definition inherited (key : string) : bool :=
  existsb (String.eqb key) Object_prototype_names.

(** [maps[key]] on the catalog, a plain object: its own entry under
    the key if it has one, else what [Object.prototype] has under that
    name, else [undefined]. *)
Definition catalog_property (key : string) (maps : list (string * MapDefinition))
  : Current :=
  match assoc key maps with
  | Some m => Def m
  | None => if inherited key then Inherited key else NoCurrent
  end.

(** The record of an assignment to [this.current]. *)
Definition assignment (c : Current) : Effect :=
  match c with
  | Def m => Set_current (Some m)
  | NoCurrent => Set_current None
  | Inherited name => Set_current_inherited name
  end.

(** The value of the test [AddMap] makes on the credentials:
    [credentials && credentials.mapbox && credentials.mapbox.accessToken]. *)
Definition access_token (cfg : Config) : jsval :=
  and_then (credentials cfg) (fun c =>
  and_then (member c "mapbox") (fun m =>
  member m "accessToken")).

(** ** The class *)

Section LodeApp.

Context {lib : Collaborators}.

Definition str (v : jsval) : string := ToString NumberToString v.

(** [AddMap] *)
Definition AddMap : M unit :=
  try_catch
    (cfg <- read this_config ;;
     token <-
       (if truthy (access_token cfg)
        then ret (member (member (credentials cfg) "mapbox") "accessToken")
        else throw (Thrown (JStr token_message))) ;;
     m <- the_current ;;
     st <- read Store ;;
     call (Factory_Map "map" token (Style m)
             (JArr [Store_Lng st; Store_Lat st]) (Store_Zoom st)) ;;
     update (set_map true) ;;
     the_map ;; call (Map_SetMaxBounds maxExtent) ;;
     the_map ;; call (On C_map "StyleChanged" H_OnMapStyleChanged) ;;
     the_map ;; call (On C_map "MoveEnd" H_OnMapMoveEnd) ;;
     the_map ;; call (On C_map "ZoomEnd" H_OnMapZoomEnd) ;;
     the_map ;; call (On C_map "Click" H_OnMapClick))
    (fun err => call (Console_error err)).

(** One turn of the loop of [AddDataSources]. *)
Definition AddDataSources_body (ds : jsval) : M unit :=
  currentSourceName <- get_or_throw "mapDataSources[i]" ds "name" ;;
  currentSourceData <- get_or_throw "mapDataSources[i]" ds "data" ;;
  if (truthy currentSourceName && truthy currentSourceData)%bool then
    the_map ;; call (Map_AddSource currentSourceName currentSourceData) ;;
    if truthy (member currentSourceData "cluster") then
      the_map ;; call (Map_AddClusters (JObj [("source", currentSourceName)]))
    else ret tt
  else ret tt.

(** The value a [let] variable holds after
    [if (this.current && this.current.X) v = this.current.X]. *)
Definition guarded (X : MapDefinition -> jsval) (c : option MapDefinition) : jsval :=
  match c with
  | Some m => if truthy (X m) then X m else JUndefined
  | None => JUndefined
  end.

(** [AddDataSources] *)
Definition AddDataSources : M unit :=
  c <- read this_current ;;
  match guarded DataSources c with
  | JArr mapDataSources =>
      if negb (Nat.eqb (length mapDataSources) 0)
      then for_each AddDataSources_body mapDataSources
      else ret tt
  | _ => ret tt
  end.

Definition AddLayersWithSources_body (currentLayer : jsval) : M unit :=
  source <- get_or_throw "currentLayer" currentLayer "source" ;;
  if truthy source then the_map ;; call (Map_AddLayer currentLayer)
  else ret tt.

(** [AddLayersWithSources] *)
Definition AddLayersWithSources : M unit :=
  c <- read this_current ;;
  match guarded Layers c with
  | JArr mapLayers =>
      if negb (Nat.eqb (length mapLayers) 0)
      then for_each AddLayersWithSources_body mapLayers
      else ret tt
  | _ => ret tt
  end.

(** [AddBaseControls] *)
Definition AddBaseControls : M unit :=
  call (Factory_FullscreenControl (Core_Nls "FullScreen_Title")) ;;
  call (Factory_NavigationControl false true
          (Core_Nls "Navigation_ZoomIn_Title")
          (Core_Nls "Navigation_ZoomOut_Title")) ;;
  call (Factory_ScaleControl "metric") ;;
  the_map ;; call (Map_AddControl C_fullscreen (Some "top-left")) ;;
  the_map ;; call (Map_AddControl C_navigation (Some "top-left")) ;;
  the_map ;; call (Map_AddControl C_scale None).

(** The arrow function of [AddSearch]: one raw row to one item. *)
Definition search_item (i : jsval) : M jsval :=
  i0 <- index_or_throw "i" i 0 ;;
  i1 <- index_or_throw "i" i 1 ;;
  i2 <- index_or_throw "i" i 2 ;;
  i3 <- index_or_throw "i" i 3 ;;
  i4 <- index_or_throw "i" i 4 ;;
  i5 <- index_or_throw "i" i 5 ;;
  ret (JObj [("id", i0);
             ("name", i1);
             ("label", JStr (str i1 ++ " (" ++ str i0 ++ ")"));
             ("extent", JArr [JArr [i2; i3]; JArr [i4; i5]])]).

Definition set_items (its : jsval) (c : Config) : Config :=
  mkConfig (credentials c) (maps c)
           (mkSearchConfig its (color (search c)) (field (search c))
                           (layer (search c)))
           (bookmarks c).

(** [AddSearch] *)
Definition AddSearch : M unit :=
  cfg <- read this_config ;;
  its <- match items (search cfg) with
         | JArr rows => array_map search_item rows
         | _ => throw (TypeError "this.config.search.items.map")
         end ;;
  update (fun w => set_config (set_items (JArr its) (this_config w)) w) ;;
  cfg <- read this_config ;;
  call (Factory_SearchControl (items (search cfg))
          (Core_Nls "Search_Placeholder") (Core_Nls "Search_Title")) ;;
  call (Search_Place "search") ;;
  call (On C_search "Change" H_OnSearchChange) ;;
  call (Search_SetInputId "lode-search").

Definition set_opacity_title (t : string) (g : Group) : Group :=
  mkGroup (legend g)
          (mkOpacity (op_value (opacity g)) (Some t) (op_label (opacity g))).
Definition set_opacity_label (t : string) (g : Group) : Group :=
  mkGroup (legend g)
          (mkOpacity (op_value (opacity g)) (op_title (opacity g)) (Some t)).

(** [AddGroup] *)
Definition AddGroup : M unit :=
  m <- the_current ;;
  call (Factory_LegendControl (Legend m) (FullTitle m) JNull (Subtitle m)) ;;
  st <- read Store ;;
  call (Factory_OpacityControl (Store_Opacity st)) ;;
  update (set_group
            (Some (mkGroup
                     (mkLegend (Legend m) (FullTitle m) JNull (Subtitle m) None)
                     (mkOpacity (Store_Opacity st) None None)))) ;;
  the_map ;;
  g <- the_group ;;
  call (Factory_Group g) ;;
  call (Map_AddControl C_group None) ;;
  the_group ;;
  call (On C_legend "LegendChange" H_OnLegend_Changed) ;;
  g <- the_group ;;
  update (set_group (Some (set_opacity_title (Core_Nls "Toc_Opacity_Title") g))) ;;
  call (Opacity_SetTitle (Core_Nls "Toc_Opacity_Title")) ;;
  g <- the_group ;;
  update (set_group (Some (set_opacity_label (Core_Nls "Toc_Opacity_Label") g))) ;;
  call (Opacity_SetLabel (Core_Nls "Toc_Opacity_Label")) ;;
  the_group ;;
  call (On C_opacity "OpacitySliderChanged" H_OnOpacitySlider_Changed).

(** [AddMenu] *)
Definition AddMenu : M unit :=
  cfg <- read this_config ;;
  call (Factory_MapsListControl (maps cfg)) ;;
  call (Factory_BookmarksControl (bookmarks cfg)) ;;
  call Factory_MenuControl ;;
  update (set_menu true) ;;
  the_map ;; call (Map_AddControl C_menu (Some "top-left")) ;;
  the_menu ;;
  call (Menu_AddButton "home" (Core_root ++ "assets/globe.png")
          (Core_Nls "Home_Title") H_OnHomeClick) ;;
  the_menu ;; the_map ;; e <- read engine ;;
  call (Menu_AddPopupButton "maps" (Core_root ++ "assets/layers.png")
          (Core_Nls "Maps_Title") C_maps (Container e)) ;;
  the_menu ;; the_map ;; e <- read engine ;;
  call (Menu_AddPopupButton "bookmarks" (Core_root ++ "assets/bookmarks.png")
          (Core_Nls "Bookmarks_Title") C_bookmarks (Container e)) ;;
  the_menu ;;
  call (Menu_AddButton "help" (Core_root ++ "assets/help.png")
          (Core_Nls "Help_Title") H_OnHelpClick) ;;
  call (On C_maps "MapSelected" H_OnMapSelected) ;;
  call (On C_bookmarks "BookmarkSelected" H_OnBookmarkSelected).

(** [ReloadTable], up to the request it leaves outstanding. *)
Definition ReloadTable : M unit :=
  call (Dom_Empty "table") ;;
  m <- the_current ;;
  let url := (Core_root ++ str (TableUrl m))%string in
  call (Net_JSON url) ;;
  update (fun w => set_pending (pending w ++ [url]) w).

(** The function [ReloadTable] passes to [then]: what runs when a
    request completes with [ev.result]. *)
Definition ReloadTable_then (ev_result : jsval) : M unit :=
  m <- the_current_UpdateTable ;;
  call (Current_UpdateTable m ev_result) ;;
  m <- the_current ;;
  call (New_Table "table" m) ;;
  update (set_table (Some (mkTable m ev_result))) ;;
  the_table ;;
  call (Table_SetMessageHref "#lode-search").

(** [OnLegend_Changed]; the event object is not read. *)
Definition OnLegend_Changed : M unit :=
  the_map ;;
  m <- the_current ;;
  g <- the_group ;;
  st <- read Store ;;
  call (Map_UpdateMapLayersWithLegendState
          (LayerIDs m) (OfControl (legend g)) (Store_Opacity st)).

(** [OnOpacitySlider_Changed], on [ev.opacity]. *)
Definition OnOpacitySlider_Changed (ev_opacity : jsval) : M unit :=
  Store_assign K_Opacity ev_opacity ;;
  the_map ;;
  m <- the_current ;;
  g <- the_group ;;
  st <- read Store ;;
  call (Map_UpdateMapLayersWithLegendState
          (LayerIDs m) (OfControl (legend g)) (Store_Opacity st)).

Definition home_extent : jsval :=
  JArr [JArr [JNum (-173.457); JNum 41.846]; JArr [JNum (-17.324); JNum 75.848]].

(** [OnHomeClick_Handler] *)
Definition OnHomeClick_Handler : M unit :=
  the_map ;; call (Map_FitBounds home_extent None).

(** [OnHelpClick_Handler]: [getElementById] gives [null] when the
    page has no such element, and the call of [click] on it throws. *)
Definition OnHelpClick_Handler : M unit :=
  if document_has "wb-auto-2" then call (Dom_Click "wb-auto-2")
  else throw (TypeError "window.document.getElementById('wb-auto-2')").

(** [OnBookmarkSelected_Handler], on [ev.item]. *)
Definition OnBookmarkSelected_Handler (ev_item : jsval) : M unit :=
  the_menu ;; call (Popup_Hide "bookmarks") ;;
  the_map ;;
  extent <- get_or_throw "ev.item" ev_item "extent" ;;
  call (Map_FitBounds extent (Some (JObj [("animate", JBool false)]))).

Definition reload (config title subtitle : jsval) (l : LegendControl) : LegendControl :=
  mkLegend config title (lg_banner l) subtitle None.

(** [OnMapSelected_Handler], on [ev.id] and [ev.map]. *)
Definition OnMapSelected_Handler (ev_id : jsval) (ev_map : MapDefinition) : M unit :=
  the_menu ;; call (Popup_Hide "maps") ;;
  Store_assign K_Map ev_id ;;
  update (set_current (Some ev_map)) ;; call (Set_current (Some ev_map)) ;;
  the_map ;;
  m <- the_current ;;
  call (Map_SetStyle (Style m)) ;;
  ReloadTable ;;
  g <- the_group ;;
  m <- the_current ;;
  call (Legend_Reload (Legend m) (FullTitle m) (Subtitle m)) ;;
  update (set_group
            (Some (mkGroup (reload (Legend m) (FullTitle m) (Subtitle m) (legend g))
                           (opacity g)))).

(** [OnMapStyleChanged_Handler] *)
Definition OnMapStyleChanged_Handler : M unit :=
  the_map ;; call Map_SetClickableMap ;;
  AddDataSources ;;
  AddLayersWithSources ;;
  the_map ;;
  m <- the_current ;;
  g <- the_group ;;
  call (Map_ApplyLegendStylesToMapLayers (LayerIDs m) (OfControl (legend g))) ;;
  the_map ;;
  m <- the_current ;;
  g <- the_group ;;
  st <- read Store ;;
  call (Map_UpdateMapLayersWithLegendState
          (LayerIDs m) (OfControl (legend g)) (Store_Opacity st)).

(** [OnMapMoveEnd_Handler] *)
Definition OnMapMoveEnd_Handler : M unit :=
  the_map ;;
  e <- read engine ;;
  Store_assign K_Lat (lat (Center e)) ;;
  the_map ;;
  e <- read engine ;;
  Store_assign K_Lng (lng (Center e)).

(** [OnMapZoomEnd_Handler] *)
Definition OnMapZoomEnd_Handler : M unit :=
  the_map ;;
  e <- read engine ;;
  Store_assign K_Zoom (Zoom e).

(** The [for ... in] loop of [OnMapClick_Handler]: every property
    value is replaced by its fixed value. *)
Definition fix_fields (ps : list (string * jsval)) : list (string * jsval) :=
  List.map (fun kv => (fst kv, Workaround_FixField (fst kv) (snd kv))) ps.

(** [OnMapClick_Handler], on [ev.point] and [ev.lngLat]. *)
Definition OnMapClick_Handler (ev_point ev_lngLat : jsval) : M unit :=
  the_map ;;
  m <- the_current ;;
  e <- read engine ;;
  call (Map_QueryRenderedFeatures ev_point (ClickableLayersIDs m)) ;;
  match rendered e ev_point (ClickableLayersIDs m) with
  | [] => ret tt
  | f :: _ =>
      let props := fix_fields (properties f) in
      m <- the_current ;;
      let html := Other_HTMLize props (Fields m) (Core_Nls "Map_Not_Available") in
      the_map ;;
      call (Map_InfoPopup ev_lngLat html)
  end.

(** The object literal [legend] of [OnSearchChange_Handler]. *)
Definition search_legend (cfg : Config) (id : jsval) : jsval :=
  JObj [("config",
         JArr [JObj [("color", color (search cfg));
                     ("value", JArr [JStr "==";
                                     JArr [JStr "get"; field (search cfg)];
                                     id])];
               JObj [("color", JArr [JNum 255; JNum 255; JNum 255; JNum 0])]])].

(** [OnSearchChange_Handler], on [ev.item]. *)
Definition OnSearchChange_Handler (ev_item : jsval) : M unit :=
  cfg <- read this_config ;;
  id <- get_or_throw "ev.item" ev_item "id" ;;
  let legend := search_legend cfg id in
  the_table ;;
  call (Table_UpdateTable ev_item) ;;
  the_map ;;
  call (Map_ApplyLegendStylesToMapLayers (JArr [layer (search cfg)]) (OfObject legend)) ;;
  the_map ;;
  extent <- get_or_throw "ev.item" ev_item "extent" ;;
  call (Map_FitBounds extent
          (Some (JObj [("padding", JNum 30); ("animate", JBool false)]))).

(** [constructor], on [config]; [this.map], [this.group],
    [this.menu] and [this.table] start out unset. *)
Definition constructor (config : Config) : M unit :=
  update (set_config config) ;;
  cfg <- read this_config ;;
  st <- read Store ;;
  let c := catalog_property (str (Store_Map st)) (maps cfg) in
  update (set_current_value c) ;; call (assignment c) ;;
  c <- read current_value ;;
  match c with
  | NoCurrent =>
      cfg <- read this_config ;;
      let f := Util_FirstProperty (maps cfg) in
      update (set_current f) ;; call (Set_current f)
  | Def _ | Inherited _ => ret tt
  end ;;
  AddMap ;;
  AddSearch ;;
  AddBaseControls ;;
  AddGroup ;;
  AddMenu ;;
  ReloadTable.

(** ** The events the application is driven by *)

(** What the controls, the map and the network deliver.  The legend
    control has taken the user's toggles, and the map its new view,
    before their events are raised. *)
Inductive Event : Type :=
| StyleChanged
| MoveEnd (center : LngLat)
| ZoomEnd (zoom : jsval)
| Click (point lngLat : jsval)
| Change (item : jsval)
| LegendChange (state : jsval)
| OpacitySliderChanged (value : jsval)
| HomeClick
| HelpClick
| MapSelected (id : jsval) (m : MapDefinition)
| BookmarkSelected (item : jsval)
| FetchDone (k : nat) (result : jsval).

Definition toggled (s : jsval) (g : Group) : Group :=
  mkGroup (mkLegend (lg_config (legend g)) (lg_title (legend g))
                    (lg_banner (legend g)) (lg_subtitle (legend g)) (Some s))
          (opacity g).

Fixpoint remove_nth {A} (k : nat) (l : list A) : list A :=
  match l, k with
  | [], _ => []
  | _ :: r, 0 => r
  | x :: r, S k => x :: remove_nth k r
  end.

Definition dispatch (ev : Event) : M unit :=
  match ev with
  | StyleChanged => OnMapStyleChanged_Handler
  | MoveEnd c =>
      update (fun w => set_engine (mkEngine c (Zoom (engine w)) (Container (engine w))
                                            (rendered (engine w))) w) ;;
      OnMapMoveEnd_Handler
  | ZoomEnd z =>
      update (fun w => set_engine (mkEngine (Center (engine w)) z (Container (engine w))
                                            (rendered (engine w))) w) ;;
      OnMapZoomEnd_Handler
  | Click p l => OnMapClick_Handler p l
  | Change i => OnSearchChange_Handler i
  | LegendChange s =>
      update (fun w => set_group (option_map (toggled s) (this_group w)) w) ;;
      OnLegend_Changed
  | OpacitySliderChanged v => OnOpacitySlider_Changed v
  | HomeClick => OnHomeClick_Handler
  | HelpClick => OnHelpClick_Handler
  | MapSelected id m => OnMapSelected_Handler id m
  | BookmarkSelected i => OnBookmarkSelected_Handler i
  | FetchDone k r =>
      p <- read pending ;;
      if Nat.ltb k (length p) then
        update (set_pending (remove_nth k p)) ;;
        ReloadTable_then r
      else ret tt
  end.

(** The event loop: an exception a handler lets escape ends that
    handler only. *)
Fixpoint run (evs : list Event) : M unit :=
  match evs with
  | [] => ret tt
  | ev :: r => try_catch (dispatch ev) (fun _ => ret tt) ;; run r
  end.

End LodeApp.

(** The world a page load starts from. *)
Definition boot (cfg : Config) (st : StoreT) (e : Engine) : World :=
  mkWorld cfg NoCurrent false None false None st e [].

(** ** Concrete runs *)

Module Demo.

(** Stand-ins for the imported modules that keep their arguments
    visible in what they return. *)
#[export] Instance lib : Collaborators :=
  mkCollaborators
    (fun _ => "0")
    "/"
    (fun key => key)
    (fun fld v => JArr [JStr "fixed"; JStr fld; v])
    (fun props fields na => JArr [JObj props; fields; JStr na])
    (fun id => String.eqb id "wb-auto-2").

Definition odhf : MapDefinition :=
  mkMapDefinition
    (JStr "mapbox://styles/odhf")
    (JArr [JObj [("name", JStr "odhf-points");
                 ("data", JObj [("type", JStr "geojson"); ("cluster", JBool true)])]])
    (JArr [JObj [("id", JStr "odhf"); ("source", JStr "odhf-points")];
           JObj [("id", JStr "csd-search"); ("source", JStr "composite")];
           JObj [("id", JStr "draft")]])
    (JArr [JObj [("label", JStr "Hospitals"); ("color", JArr [JNum 255; JNum 0; JNum 0])]])
    (JStr "Open Database of Healthcare Facilities")
    (JStr "ODHF")
    (JArr [JStr "odhf"])
    (JArr [JStr "odhf"])
    (JArr [JStr "facility_name"])
    (JStr "data/odhf.json").

Definition odef : MapDefinition :=
  mkMapDefinition
    (JStr "mapbox://styles/odef")
    JUndefined
    (JArr [JObj [("id", JStr "odef"); ("source", JStr "composite")]])
    (JArr [JObj [("label", JStr "Schools"); ("color", JArr [JNum 0; JNum 0; JNum 255])]])
    (JStr "Open Database of Educational Facilities")
    (JStr "ODEF")
    (JArr [JStr "odef"])
    (JArr [JStr "odef"])
    (JArr [JStr "facility_name"])
    (JStr "data/odef.json").

Definition montreal_row : jsval :=
  JArr [JStr "2466023"; JStr "Montreal";
        JNum (-73.97); JNum 45.41; JNum (-73.47); JNum 45.70].

Definition montreal : jsval :=
  JObj [("id", JStr "2466023");
        ("name", JStr "Montreal");
        ("label", JStr "Montreal (2466023)");
        ("extent", JArr [JArr [JNum (-73.97); JNum 45.41];
                         JArr [JNum (-73.47); JNum 45.70]])].

Definition search_config : SearchConfig :=
  mkSearchConfig (JArr [montreal_row])
                 (JArr [JNum 255; JNum 0; JNum 0; JNum 1])
                 (JStr "CSDUID")
                 (JStr "csd-search").

Definition config : Config :=
  mkConfig (JObj [("mapbox", JObj [("accessToken", JStr "pk.token")])])
           [("odhf", odhf); ("odef", odef)]
           search_config
           JNull.

(** The same configuration without the access token. *)
Definition config_no_token : Config :=
  mkConfig (JObj [("mapbox", JObj [])])
           [("odhf", odhf); ("odef", odef)]
           search_config
           JNull.

Definition store : StoreT :=
  mkStore (JStr "odhf") (JNum 60.847) (JNum (-96.854)) (JNum 3) (JNum 0.75).

Definition hospital : Feature :=
  mkFeature [("facility_name", JStr "Hopital general")].
Definition clinic : Feature :=
  mkFeature [("facility_name", JStr "Clinique")].

(** Two features under the point (10, 20), none elsewhere. *)
Definition live_map : Engine :=
  mkEngine (mkLngLat (JNum 45.5) (JNum (-73.6)))
           (JNum 9)
           (JStr "map-container")
           (fun point _ =>
              match point with
              | JArr [JNum x; JNum y] =>
                  if (PrimFloat.eqb x 10 && PrimFloat.eqb y 20)%bool
                  then [hospital; clinic] else []
              | _ => []
              end).

(** The application once its constructor has returned. *)
Definition started : World := world (constructor config (boot config store live_map)).

(** ... and once the first table request has completed. *)
Definition loaded : World :=
  world (run [FetchDone 0 (JStr "rows of odhf")] started).

End Demo.

(** The concrete runs below are made with the stand-ins of [Demo]. *)
#[local] Existing Instance Demo.lib | 100.


(** ** Vocabulary of the properties *)

(** The application as its constructor leaves it when it returns: the
    map, the legend group and the menu exist and a map definition is
    current.  (The table does not exist yet: it is created when the
    first request completes.) *)
Definition ready (w : World) (m : MapDefinition) (g : Group) : Prop :=
  this_map w = true /\ this_current w = Some m /\
  this_group w = Some g /\ this_menu w = true.

(** The elements of a configuration array are objects. *)
Definition objects (l : list jsval) : Prop :=
  Forall (fun x => nullish x = false) l.

(** The rows of the search configuration are arrays. *)
Definition arrays (l : list jsval) : Prop :=
  Forall (fun x => exists elts, x = JArr elts) l.

(** The arrays the two loops of the style handler run over. *)
Definition array_of (v : jsval) : list jsval :=
  match v with
  | JArr l => l
  | _ => []
  end.

(** The test [AddLayersWithSources] makes on a layer. *)
Definition has_source (l : jsval) : bool := truthy (member l "source").

(** The calls one data source gives rise to in [AddDataSources]. *)
Definition source_calls (ds : jsval) : list Effect :=
  if (truthy (member ds "name") && truthy (member ds "data"))%bool then
    Map_AddSource (member ds "name") (member ds "data")
    :: (if truthy (member (member ds "data") "cluster")
        then [Map_AddClusters (JObj [("source", member ds "name")])]
        else [])
  else [].

(** The names of the sources added to the map by a run. *)
Fixpoint added_sources (es : list Effect) : list jsval :=
  match es with
  | [] => []
  | Map_AddSource n _ :: r => n :: added_sources r
  | _ :: r => added_sources r
  end.

(** What the map was last asked to restyle its layers from. *)
Fixpoint applied (es : list Effect) : option (jsval * LegendLike * jsval) :=
  match es with
  | [] => None
  | e :: r =>
      match applied r with
      | Some a => Some a
      | None =>
          match e with
          | Map_UpdateMapLayersWithLegendState ids lg op => Some (ids, lg, op)
          | _ => None
          end
      end
  end.

Definition is_styling (e : Effect) : bool :=
  match e with
  | Map_UpdateMapLayersWithLegendState _ _ _
  | Map_ApplyLegendStylesToMapLayers _ _ => true
  | _ => false
  end.

Definition is_search_control (e : Effect) : bool :=
  match e with
  | Factory_SearchControl _ _ _ => true
  | _ => false
  end.

Definition is_popup (e : Effect) : bool :=
  match e with
  | Map_InfoPopup _ _ => true
  | _ => false
  end.

(** The generation counter of the specification: the number of map
    selections delivered so far. *)
Fixpoint generation (history : list Event) : nat :=
  match history with
  | [] => 0
  | MapSelected _ _ :: r => S (generation r)
  | _ :: r => generation r
  end.

(** A raw row of the search configuration. *)
Definition raw_row (r : jsval * jsval * (jsval * jsval) * (jsval * jsval)) : jsval :=
  let '(id, name, (minLng, minLat), (maxLng, maxLat)) := r in
  JArr [id; name; minLng; minLat; maxLng; maxLat].

(** [i[k]] where it does not throw. *)
Definition elt (i : jsval) (k : nat) : jsval :=
  match index i k with
  | Some x => x
  | None => JUndefined
  end.

(** The item the arrow function of [AddSearch] returns for a row. *)
Definition search_item_of {lib : Collaborators} (i : jsval) : jsval :=
  JObj [("id", elt i 0);
        ("name", elt i 1);
        ("label", JStr (str (elt i 1) ++ " (" ++ str (elt i 0) ++ ")"));
        ("extent", JArr [JArr [elt i 2; elt i 3]; JArr [elt i 4; elt i 5]])].

(** The legend group [AddGroup] builds for a map definition. *)
Definition fresh_group {lib : Collaborators} (m : MapDefinition) (st : StoreT) : Group :=
  mkGroup (mkLegend (Legend m) (FullTitle m) JNull (Subtitle m) None)
          (mkOpacity (Store_Opacity st)
                     (Some (Core_Nls "Toc_Opacity_Title"))
                     (Some (Core_Nls "Toc_Opacity_Label"))).

(** The item of the search index for the raw row
    [[id, name, minLng, minLat, maxLng, maxLat]]. *)
Definition derived_item {lib : Collaborators}
           (r : jsval * jsval * (jsval * jsval) * (jsval * jsval)) : jsval :=
  let '(id, name, (minLng, minLat), (maxLng, maxLat)) := r in
  JObj [("id", id);
        ("name", name);
        ("label", JStr (str name ++ " (" ++ str id ++ ")"));
        ("extent", JArr [JArr [minLng; minLat]; JArr [maxLng; maxLat]])].

(** The state of the application once the opacity [v] is stored. *)
Definition at_opacity (v : jsval) (w : World) : World :=
  set_Store (Store_write K_Opacity v (Store w)) w.

(** What the constructor runs after [AddSearch]. *)
Definition after_search {lib : Collaborators} : M unit :=
  AddBaseControls ;; AddGroup ;; AddMenu ;; ReloadTable.

(** What the first statements of the constructor leave in
    [this.current]: the value of the catalog under the stored id, or,
    when that is [undefined], the first entry of the catalog. *)
Definition selected {lib : Collaborators} (cfg : Config) (st : StoreT)
  : Current :=
  match catalog_property (str (Store_Map st)) (maps cfg) with
  | NoCurrent =>
      match Util_FirstProperty (maps cfg) with
      | Some m => Def m
      | None => NoCurrent
      end
  | c => c
  end.

(** A statement that leaves an observation of the world as it was,
    however it completes. *)
Definition keeps {A X : Type} (f : World -> X) (m : M A) : Prop :=
  forall w, f (world (m w)) = f w.

(** A statement all of whose calls satisfy [P], however it completes. *)
Definition only {A : Type} (P : Effect -> bool) (m : M A) : Prop :=
  forall w, forallb P (effects (m w)) = true.

Definition not_search_control (e : Effect) : bool := negb (is_search_control e).

(** The own properties of an object, none for any other value. *)
Definition own_properties (v : jsval) : list (string * jsval) :=
  match v with
  | JObj ps => ps
  | _ => []
  end.

(** [Store.K] *)
Definition Store_read (k : StoreKey) (s : StoreT) : jsval :=
  match k with
  | K_Map => Store_Map s
  | K_Lat => Store_Lat s
  | K_Lng => Store_Lng s
  | K_Zoom => Store_Zoom s
  | K_Opacity => Store_Opacity s
  end.

(** The keys of the store the handler of an event assigns to. *)
Definition writes (ev : Event) : list StoreKey :=
  match ev with
  | MoveEnd _ => [K_Lat; K_Lng]
  | ZoomEnd _ => [K_Zoom]
  | OpacitySliderChanged _ => [K_Opacity]
  | MapSelected _ _ => [K_Map]
  | _ => []
  end.

(** A statement that carries a property of the world over, however it
    completes. *)
Definition stable {A : Type} (P : World -> Prop) (m : M A) : Prop :=
  forall w, P w -> P (world (m w)).

(** The application is ready, for some current map and legend group. *)
Definition constructed (w : World) : Prop :=
  exists m g, ready w m g.

(** The assignments to [this.current] the constructor starts with. *)
Definition selection_calls {lib : Collaborators} (cfg : Config) (st : StoreT)
  : list Effect :=
  assignment (catalog_property (str (Store_Map st)) (maps cfg))
  :: match catalog_property (str (Store_Map st)) (maps cfg) with
     | NoCurrent => [Set_current (Util_FirstProperty (maps cfg))]
     | Def _ | Inherited _ => []
     end.

(** The calls of a startup that goes through, after the selection of
    the map definition [m]: those of [AddMap], [AddSearch] (with the
    search items [its]), [AddBaseControls], [AddGroup], [AddMenu] and
    [ReloadTable], in this order. *)
Definition startup_calls {lib : Collaborators} (cfg : Config) (st : StoreT)
           (e : Engine) (m : MapDefinition) (its : jsval) : list Effect :=
  [Factory_Map "map"
     (member (member (credentials cfg) "mapbox") "accessToken")
     (Style m) (JArr [Store_Lng st; Store_Lat st]) (Store_Zoom st);
   Map_SetMaxBounds maxExtent;
   On C_map "StyleChanged" H_OnMapStyleChanged;
   On C_map "MoveEnd" H_OnMapMoveEnd;
   On C_map "ZoomEnd" H_OnMapZoomEnd;
   On C_map "Click" H_OnMapClick;
   Factory_SearchControl its (Core_Nls "Search_Placeholder") (Core_Nls "Search_Title");
   Search_Place "search";
   On C_search "Change" H_OnSearchChange;
   Search_SetInputId "lode-search";
   Factory_FullscreenControl (Core_Nls "FullScreen_Title");
   Factory_NavigationControl false true
     (Core_Nls "Navigation_ZoomIn_Title") (Core_Nls "Navigation_ZoomOut_Title");
   Factory_ScaleControl "metric";
   Map_AddControl C_fullscreen (Some "top-left");
   Map_AddControl C_navigation (Some "top-left");
   Map_AddControl C_scale None;
   Factory_LegendControl (Legend m) (FullTitle m) JNull (Subtitle m);
   Factory_OpacityControl (Store_Opacity st);
   Factory_Group
     (mkGroup (mkLegend (Legend m) (FullTitle m) JNull (Subtitle m) None)
              (mkOpacity (Store_Opacity st) None None));
   Map_AddControl C_group None;
   On C_legend "LegendChange" H_OnLegend_Changed;
   Opacity_SetTitle (Core_Nls "Toc_Opacity_Title");
   Opacity_SetLabel (Core_Nls "Toc_Opacity_Label");
   On C_opacity "OpacitySliderChanged" H_OnOpacitySlider_Changed;
   Factory_MapsListControl (maps cfg);
   Factory_BookmarksControl (bookmarks cfg);
   Factory_MenuControl;
   Map_AddControl C_menu (Some "top-left");
   Menu_AddButton "home" (Core_root ++ "assets/globe.png")
     (Core_Nls "Home_Title") H_OnHomeClick;
   Menu_AddPopupButton "maps" (Core_root ++ "assets/layers.png")
     (Core_Nls "Maps_Title") C_maps (Container e);
   Menu_AddPopupButton "bookmarks" (Core_root ++ "assets/bookmarks.png")
     (Core_Nls "Bookmarks_Title") C_bookmarks (Container e);
   Menu_AddButton "help" (Core_root ++ "assets/help.png")
     (Core_Nls "Help_Title") H_OnHelpClick;
   On C_maps "MapSelected" H_OnMapSelected;
   On C_bookmarks "BookmarkSelected" H_OnBookmarkSelected;
   Dom_Empty "table";
   Net_JSON (Core_root ++ str (TableUrl m))].

(** ** Properties *)

Section Basics.

Context {lib : Collaborators}.

Lemma str_JStr (s : string) : str (JStr s) = s.
Proof. reflexivity. Qed.

End Basics.

(** *** Running a sequence of statements *)

Lemma bind_runs {A B} (m : M A) (f : A -> M B) (w w1 w2 : World)
      (a : A) (r : Completion B) (e1 e2 : list Effect) :
  m w = mkOutcome (Normal a) w1 e1 ->
  f a w1 = mkOutcome r w2 e2 ->
  bind m f w = mkOutcome r w2 (e1 ++ e2).
Proof. intros Hm Hf. unfold bind. rewrite Hm; simpl. rewrite Hf. reflexivity. Qed.

Lemma bind_throws {A B} (m : M A) (f : A -> M B) (w w1 : World)
      (x : exn) (e1 : list Effect) :
  m w = mkOutcome (Throw x) w1 e1 ->
  bind m f w = mkOutcome (Throw x) w1 e1.
Proof. intros Hm. unfold bind. rewrite Hm. reflexivity. Qed.

Lemma the_map_runs (w : World) :
  this_map w = true -> the_map w = mkOutcome (Normal tt) w [].
Proof. intros H. unfold the_map, bind, read; simpl. rewrite H. reflexivity. Qed.

Lemma the_map_throws (w : World) :
  this_map w = false -> the_map w = mkOutcome (Throw (TypeError "this.map")) w [].
Proof. intros H. unfold the_map, bind, read; simpl. rewrite H. reflexivity. Qed.

Lemma the_menu_runs (w : World) :
  this_menu w = true -> the_menu w = mkOutcome (Normal tt) w [].
Proof. intros H. unfold the_menu, bind, read; simpl. rewrite H. reflexivity. Qed.

Lemma current_is_definition (w : World) (m : MapDefinition) :
  this_current w = Some m -> current_value w = Def m.
Proof.
  unfold this_current. intros H.
  destruct (current_value w); try discriminate H.
  injection H as ->. reflexivity.
Qed.

Lemma the_current_runs (w : World) (m : MapDefinition) :
  this_current w = Some m -> the_current w = mkOutcome (Normal m) w [].
Proof.
  intros H. apply current_is_definition in H.
  unfold the_current, bind, read; simpl. rewrite H. reflexivity.
Qed.

Lemma the_current_UpdateTable_runs (w : World) (m : MapDefinition) :
  this_current w = Some m ->
  the_current_UpdateTable w = mkOutcome (Normal m) w [].
Proof.
  intros H. apply current_is_definition in H.
  unfold the_current_UpdateTable, bind, read; simpl. rewrite H. reflexivity.
Qed.

Lemma the_group_runs (w : World) (g : Group) :
  this_group w = Some g -> the_group w = mkOutcome (Normal g) w [].
Proof. intros H. unfold the_group, bind, read; simpl. rewrite H. reflexivity. Qed.

Lemma the_table_runs (w : World) (t : TableWidget) :
  this_table w = Some t -> the_table w = mkOutcome (Normal t) w [].
Proof. intros H. unfold the_table, bind, read; simpl. rewrite H. reflexivity. Qed.

Lemma get_or_throw_runs (what : string) (v : jsval) (k : string) (w : World) :
  nullish v = false ->
  get_or_throw what v k w = mkOutcome (Normal (member v k)) w [].
Proof. intros H. unfold get_or_throw, get. rewrite H. reflexivity. Qed.

(** One statement of a sequence, run from the facts at hand. *)
Ltac run_step :=
  first
    [ apply the_map_runs; assumption
    | apply get_or_throw_runs; assumption
    | apply the_menu_runs; assumption
    | apply the_current_runs; eassumption
    | apply the_current_UpdateTable_runs; eassumption
    | apply the_group_runs; eassumption
    | apply the_table_runs; eassumption
    | reflexivity ].

Ltac run_seq :=
  repeat (eapply bind_runs; [run_step | cbv beta]).

(** C9. A settled pan stores the latitude and the longitude of the map
    centre and nothing else, a settled zoom stores the zoom level and
    nothing else: the other keys of the store keep their values and no
    styling call is made. *)
Theorem pan_zoom_persist_only_their_keys
  {lib : Collaborators} (w : World) (Hmap : this_map w = true) :
  let pan := OnMapMoveEnd_Handler w in
  let zoom := OnMapZoomEnd_Handler w in
  (result pan = Normal tt /\
   effects pan = [Store_set K_Lat (lat (Center (engine w)));
                  Store_set K_Lng (lng (Center (engine w)))] /\
   world pan = set_Store (mkStore (Store_Map (Store w))
                                  (lat (Center (engine w)))
                                  (lng (Center (engine w)))
                                  (Store_Zoom (Store w))
                                  (Store_Opacity (Store w))) w /\
   filter is_styling (effects pan) = []) /\
  (result zoom = Normal tt /\
   effects zoom = [Store_set K_Zoom (Zoom (engine w))] /\
   world zoom = set_Store (mkStore (Store_Map (Store w))
                                   (Store_Lat (Store w))
                                   (Store_Lng (Store w))
                                   (Zoom (engine w))
                                   (Store_Opacity (Store w))) w /\
   filter is_styling (effects zoom) = []).
Proof.
  destruct w; simpl in *; subst.
  repeat split; reflexivity.
Qed.

Lemma pan_zoom_persist_only_their_keys_witness :
  this_map Demo.loaded = true /\
  effects (OnMapMoveEnd_Handler Demo.loaded)
  = [Store_set K_Lat (JNum 45.5); Store_set K_Lng (JNum (-73.6))] /\
  effects (OnMapZoomEnd_Handler Demo.loaded) = [Store_set K_Zoom (JNum 9)] /\
  Store_Map (Store (world (OnMapMoveEnd_Handler Demo.loaded))) = JStr "odhf" /\
  Store_Opacity (Store (world (OnMapZoomEnd_Handler Demo.loaded))) = JNum 0.75.
Proof.
  split; [reflexivity |].
  destruct (@pan_zoom_persist_only_their_keys Demo.lib Demo.loaded eq_refl)
    as [[_ [Hpan [Hw _]]] [_ [Hzoom [Hw' _]]]].
  split; [exact Hpan |].
  split; [exact Hzoom |].
  split; [rewrite Hw | rewrite Hw']; reflexivity.
Defined.

(** C7. A click hit-tests the clickable layers of the current map at
    the clicked point.  With no feature under the point nothing else
    happens: no popup is requested and the application is unchanged.
    Otherwise the first feature returned is taken, every one of its
    property values is passed through the field fix, the result is
    formatted against the fields of the current map with the localized
    placeholder, and one popup is requested at the clicked location
    with that content. *)
Theorem click_shows_topmost_feature
  {lib : Collaborators} (w : World) (m : MapDefinition)
  (point lngLat : jsval)
  (Hmap : this_map w = true) (Hcur : this_current w = Some m) :
  let hit := rendered (engine w) point (ClickableLayersIDs m) in
  let query := Map_QueryRenderedFeatures point (ClickableLayersIDs m) in
  (hit = [] ->
   OnMapClick_Handler point lngLat w = mkOutcome (Normal tt) w [query]) /\
  (forall f others, hit = f :: others ->
   OnMapClick_Handler point lngLat w
   = mkOutcome (Normal tt) w
       [query;
        Map_InfoPopup lngLat
          (Other_HTMLize
             (List.map (fun kv => (fst kv, Workaround_FixField (fst kv) (snd kv)))
                       (properties f))
             (Fields m)
             (Core_Nls "Map_Not_Available"))]).
Proof.
  try apply current_is_definition in Hcur.
  destruct w as [cfg cur mp grp mn tb st en pd]; simpl in *; subst.
  split.
  - intros Hhit. unfold OnMapClick_Handler, bind; simpl.
    rewrite Hhit. reflexivity.
  - intros f others Hhit. unfold OnMapClick_Handler, bind; simpl.
    rewrite Hhit. reflexivity.
Qed.

Lemma click_shows_topmost_feature_witness :
  effects (OnMapClick_Handler (JArr [JNum 10; JNum 20]) (JStr "here") Demo.loaded)
  = [Map_QueryRenderedFeatures (JArr [JNum 10; JNum 20]) (JArr [JStr "odhf"]);
     Map_InfoPopup (JStr "here")
       (JArr [JObj [("facility_name",
                     JArr [JStr "fixed"; JStr "facility_name";
                           JStr "Hopital general"])];
              JArr [JStr "facility_name"];
              JStr "Map_Not_Available"])] /\
  effects (OnMapClick_Handler (JArr [JNum 0; JNum 0]) (JStr "there") Demo.loaded)
  = [Map_QueryRenderedFeatures (JArr [JNum 0; JNum 0]) (JArr [JStr "odhf"])].
Proof.
  split.
  - destruct (@click_shows_topmost_feature Demo.lib Demo.loaded Demo.odhf
                (JArr [JNum 10; JNum 20]) (JStr "here") eq_refl eq_refl)
      as [_ Hsome].
    rewrite (Hsome Demo.hospital [Demo.clinic] eq_refl). reflexivity.
  - destruct (@click_shows_topmost_feature Demo.lib Demo.loaded Demo.odhf
                (JArr [JNum 0; JNum 0]) (JStr "there") eq_refl eq_refl)
      as [Hnone _].
    rewrite (Hnone eq_refl). reflexivity.
Defined.

(** C3. Selecting a map that is in the catalog makes exactly these
    calls, in this order: hide the popup of the maps list; store the
    new id as the active map; make the catalog entry the current map
    definition; switch the style of the map; reload the table (empty
    it and request the table of the new map); reload the legend from
    the legend of the new map. *)
Theorem map_selected_effects_in_order
  {lib : Collaborators} (w : World) (m0 : MapDefinition) (g : Group)
  (newId : jsval) (m : MapDefinition)
  (Hready : ready w m0 g)
  (Hvalid : assoc (str newId) (maps (this_config w)) = Some m) :
  let o := OnMapSelected_Handler newId m w in
  result o = Normal tt /\
  effects o = [Popup_Hide "maps";
               Store_set K_Map newId;
               Set_current (assoc (str newId) (maps (this_config w)));
               Map_SetStyle (Style m);
               Dom_Empty "table";
               Net_JSON (Core_root ++ str (TableUrl m));
               Legend_Reload (Legend m) (FullTitle m) (Subtitle m)] /\
  Store_Map (Store (world o)) = newId /\
  this_current (world o) = assoc (str newId) (maps (this_config w)) /\
  pending (world o) = pending w ++ [(Core_root ++ str (TableUrl m))%string] /\
  option_map legend (this_group (world o))
  = Some (mkLegend (Legend m) (FullTitle m) (lg_banner (legend g)) (Subtitle m) None).
Proof.
  destruct Hready as (Hmap & Hcur & Hgrp & Hmenu).
  try apply current_is_definition in Hcur.
  destruct w as [cfg cur mp grp mn tb st en pd]; simpl in *; subst.
  rewrite Hvalid.
  repeat split; reflexivity.
Qed.

Lemma map_selected_effects_in_order_witness :
  let o := OnMapSelected_Handler (JStr "odef") Demo.odef Demo.loaded in
  result o = Normal tt /\
  effects o = [Popup_Hide "maps";
               Store_set K_Map (JStr "odef");
               Set_current (Some Demo.odef);
               Map_SetStyle (JStr "mapbox://styles/odef");
               Dom_Empty "table";
               Net_JSON "/data/odef.json";
               Legend_Reload (Legend Demo.odef) (FullTitle Demo.odef) (Subtitle Demo.odef)].
Proof.
  assert (Hready : ready Demo.loaded Demo.odhf
                     (mkGroup (mkLegend (Legend Demo.odhf) (FullTitle Demo.odhf)
                                        JNull (Subtitle Demo.odhf) None)
                              (mkOpacity (JNum 0.75) (Some "Toc_Opacity_Title")
                                         (Some "Toc_Opacity_Label"))))
    by (repeat split; reflexivity).
  destruct (@map_selected_effects_in_order Demo.lib Demo.loaded _ _
              (JStr "odef") Demo.odef Hready eq_refl) as (Hres & Heff & _).
  split; [exact Hres | exact Heff].
Defined.

(** X17. Once a completed request has created the table, selecting a
    search item focuses the table on the item,
    applies a directive of two rules (the configured search field
    equal to the id of the item gets the configured colour; anything
    else gets the fully transparent colour) to the one configured
    search layer and to no other layer, and fits the map to the extent
    of the item with a padding of 30 and without animation.  The
    application itself is left as it was. *)
Theorem search_selected_highlights_one_layer
  {lib : Collaborators} (w : World) (t : TableWidget) (item : jsval)
  (Hmap : this_map w = true)
  (Htable : this_table w = Some t)
  (Hitem : nullish item = false) :
  let cfg := search (this_config w) in
  let rule1 :=
    JObj [("color", color cfg);
          ("value", JArr [JStr "=="; JArr [JStr "get"; field cfg]; member item "id"])] in
  let rule2 := JObj [("color", JArr [JNum 255; JNum 255; JNum 255; JNum 0])] in
  OnSearchChange_Handler item w
  = mkOutcome (Normal tt) w
      [Table_UpdateTable item;
       Map_ApplyLegendStylesToMapLayers
         (JArr [layer cfg])
         (OfObject (JObj [("config", JArr [rule1; rule2])]));
       Map_FitBounds (member item "extent")
         (Some (JObj [("padding", JNum 30); ("animate", JBool false)]))].
Proof.
  cbv zeta. unfold OnSearchChange_Handler.
  etransitivity; [run_seq; reflexivity | reflexivity].
Qed.

Lemma search_selected_highlights_one_layer_witness :
  effects (OnSearchChange_Handler Demo.montreal Demo.loaded)
  = [Table_UpdateTable Demo.montreal;
     Map_ApplyLegendStylesToMapLayers
       (JArr [JStr "csd-search"])
       (OfObject
          (JObj [("config",
                  JArr [JObj [("color", JArr [JNum 255; JNum 0; JNum 0; JNum 1]);
                              ("value", JArr [JStr "==";
                                              JArr [JStr "get"; JStr "CSDUID"];
                                              JStr "2466023"])];
                        JObj [("color", JArr [JNum 255; JNum 255; JNum 255; JNum 0])]])]));
     Map_FitBounds (JArr [JArr [JNum (-73.97); JNum 45.41];
                          JArr [JNum (-73.47); JNum 45.70]])
       (Some (JObj [("padding", JNum 30); ("animate", JBool false)]))].
Proof.
  rewrite (@search_selected_highlights_one_layer Demo.lib Demo.loaded
             (mkTable Demo.odhf (JStr "rows of odhf")) Demo.montreal
             eq_refl eq_refl eq_refl).
  reflexivity.
Defined.

(** C4. Selecting a search item is to focus the table on the item,
    highlight the one search layer and fit the map, for every item.
    Before the first table request has completed it does none of the
    three: the constructor has returned and the search control delivers
    its events, but [this.table] is only set when a request completes,
    so the handler throws a TypeError at the first call it makes,
    [this.table.UpdateTable]; the table is not focused, no layer is
    styled and the map is not fitted. *)
Lemma search_selected_before_table_loaded :
  let o := OnSearchChange_Handler Demo.montreal Demo.started in
  result (constructor Demo.config (boot Demo.config Demo.store Demo.live_map))
  = Normal tt /\
  this_table Demo.started = None /\
  result o = Throw (TypeError "this.table") /\
  effects o = [].
Proof. repeat split; reflexivity. Qed.

(** C5. A legend change asks the map for exactly one restyling, of
    the layers of the current map from the legend and the stored
    opacity, and changes nothing; an opacity change to [v] stores [v]
    and then asks for the same restyling at [v].  So what is asked for
    depends on the legend and the opacity alone (two states that agree
    on them ask for the same), and asking again asks for the same thing
    and leaves the same state.  An opacity change to [v], a legend
    change to [s] and the opacity change to [v] again make the requests
    listed below, the last of which, made by the second opacity change,
    is the one request the legend change to [s] alone makes at opacity
    [v]; both runs end in the same state. *)
Theorem styling_is_a_function_of_legend_and_opacity
  {lib : Collaborators} (w : World) (m : MapDefinition) (g : Group)
  (Hready : ready w m g) :
  let restyle lg op :=
    Map_UpdateMapLayersWithLegendState (LayerIDs m) (OfControl lg) op in
  (forall w' m' g',
      ready w' m' g' ->
      LayerIDs m' = LayerIDs m ->
      legend g' = legend g ->
      Store_Opacity (Store w') = Store_Opacity (Store w) ->
      effects (OnLegend_Changed w') = effects (OnLegend_Changed w)) /\
  (OnLegend_Changed w
   = mkOutcome (Normal tt) w [restyle (legend g) (Store_Opacity (Store w))] /\
   OnLegend_Changed (world (OnLegend_Changed w)) = OnLegend_Changed w) /\
  (forall v,
      OnOpacitySlider_Changed v w
      = mkOutcome (Normal tt) (at_opacity v w)
          [Store_set K_Opacity v; restyle (legend g) v] /\
      OnOpacitySlider_Changed v (world (OnOpacitySlider_Changed v w))
      = OnOpacitySlider_Changed v w) /\
  (forall v s,
      let thrice := run [OpacitySliderChanged v; LegendChange s;
                         OpacitySliderChanged v] w in
      let once := run [LegendChange s] (at_opacity v w) in
      effects thrice
      = [Store_set K_Opacity v; restyle (legend g) v;
         restyle (legend (toggled s g)) v;
         Store_set K_Opacity v; restyle (legend (toggled s g)) v] /\
      effects once = [restyle (legend (toggled s g)) v] /\
      applied (effects thrice)
      = Some (LayerIDs m, OfControl (legend (toggled s g)), v) /\
      applied (effects once) = applied (effects thrice) /\
      world once = world thrice /\
      world once = set_group (Some (toggled s g)) (at_opacity v w)).
Proof.
  destruct Hready as (Hmap & Hcur & Hgrp & Hmenu).
  cbv zeta. split; [| split; [| split]].
  - intros w' m' g' (Hmap' & Hcur' & Hgrp' & Hmenu') Hids Hlg Hop.
    apply current_is_definition in Hcur, Hcur'.
    destruct w as [cfg cur mp grp mn tb st en pd];
      destruct w' as [cfg' cur' mp' grp' mn' tb' st' en' pd'];
      simpl in *; subst.
    unfold OnLegend_Changed, bind; simpl.
    rewrite Hids, Hlg, Hop. reflexivity.
  - apply current_is_definition in Hcur.
    destruct w as [cfg cur mp grp mn tb st en pd]; simpl in *; subst.
    split; reflexivity.
  - intros v. apply current_is_definition in Hcur.
    destruct w as [cfg cur mp grp mn tb st en pd]; simpl in *; subst.
    split; reflexivity.
  - intros v s. apply current_is_definition in Hcur.
    destruct w as [cfg cur mp grp mn tb st en pd]; simpl in *; subst.
    repeat split; reflexivity.
Qed.

Lemma styling_is_a_function_of_legend_and_opacity_witness :
  let s := JArr [JBool false] in
  let v := JNum 0.5 in
  let before := mkLegend (Legend Demo.odhf) (FullTitle Demo.odhf) JNull
                         (Subtitle Demo.odhf) None in
  let after := mkLegend (Legend Demo.odhf) (FullTitle Demo.odhf) JNull
                        (Subtitle Demo.odhf) (Some s) in
  let restyle lg :=
    Map_UpdateMapLayersWithLegendState (JArr [JStr "odhf"]) (OfControl lg) v in
  effects (OnOpacitySlider_Changed v Demo.loaded)
  = [Store_set K_Opacity v; restyle before] /\
  effects (run [OpacitySliderChanged v; LegendChange s;
                OpacitySliderChanged v] Demo.loaded)
  = [Store_set K_Opacity v; restyle before; restyle after;
     Store_set K_Opacity v; restyle after] /\
  effects (run [LegendChange s] (at_opacity v Demo.loaded)) = [restyle after].
Proof.
  assert (Hready : ready Demo.loaded Demo.odhf
                     (mkGroup (mkLegend (Legend Demo.odhf) (FullTitle Demo.odhf)
                                        JNull (Subtitle Demo.odhf) None)
                              (mkOpacity (JNum 0.75) (Some "Toc_Opacity_Title")
                                         (Some "Toc_Opacity_Label"))))
    by (repeat split; reflexivity).
  destruct (@styling_is_a_function_of_legend_and_opacity
              Demo.lib Demo.loaded _ _ Hready) as (_ & _ & Hopacity & Hseq).
  destruct (Hopacity (JNum 0.5)) as (Hone & _).
  destruct (Hseq (JNum 0.5) (JArr [JBool false])) as (Hthrice & Honce & _).
  cbv zeta. split; [rewrite Hone; reflexivity |].
  split; [exact Hthrice | exact Honce].
Defined.

(** *** The two loops of the style handler *)

Section Loops.

Context {lib : Collaborators}.

Lemma array_of_guarded (X : MapDefinition -> jsval) (m : MapDefinition) :
  array_of (guarded X (Some m)) = array_of (X m).
Proof.
  unfold guarded. destruct (X m) as [| | b | n | s | l | ps]; simpl; trivial.
  - destruct b; reflexivity.
  - destruct (negb (number_falsy n)); reflexivity.
  - destruct (negb (s =? "")%string); reflexivity.
Qed.

Lemma layers_loop (ls : list jsval) (w : World) :
  this_map w = true ->
  objects ls ->
  for_each AddLayersWithSources_body ls w
  = mkOutcome (Normal tt) w (List.map Map_AddLayer (filter has_source ls)).
Proof.
  intros Hmap Hobj. induction Hobj as [| l ls Hl _ IH]; [reflexivity |].
  simpl for_each. unfold bind at 1.
  assert (Hbody : AddLayersWithSources_body l w
                  = mkOutcome (Normal tt) w
                      (if has_source l then [Map_AddLayer l] else [])).
  { unfold AddLayersWithSources_body, get_or_throw, get, has_source.
    rewrite Hl. unfold bind, ret; simpl.
    destruct (truthy (member l "source")); [| reflexivity].
    unfold the_map, read, call; simpl. rewrite Hmap. reflexivity. }
  rewrite Hbody; simpl. rewrite IH; simpl.
  unfold has_source. destruct (truthy (member l "source")); reflexivity.
Qed.

Lemma sources_loop (ls : list jsval) (w : World) :
  this_map w = true ->
  objects ls ->
  for_each AddDataSources_body ls w
  = mkOutcome (Normal tt) w (flat_map source_calls ls).
Proof.
  intros Hmap Hobj. induction Hobj as [| d ls Hd _ IH]; [reflexivity |].
  simpl for_each. unfold bind at 1.
  assert (Hbody : AddDataSources_body d w
                  = mkOutcome (Normal tt) w (source_calls d)).
  { unfold AddDataSources_body, get_or_throw, get, source_calls.
    rewrite Hd. unfold bind, ret; simpl.
    destruct (truthy (member d "name") && truthy (member d "data"))%bool;
      [| reflexivity].
    unfold the_map, read, call; simpl. rewrite Hmap; simpl.
    destruct (truthy (member (member d "data") "cluster")); simpl;
      [rewrite Hmap |]; reflexivity. }
  rewrite Hbody; simpl. rewrite IH; reflexivity.
Qed.

Lemma AddLayersWithSources_run (w : World) (m : MapDefinition) :
  this_map w = true ->
  this_current w = Some m ->
  objects (array_of (Layers m)) ->
  AddLayersWithSources w
  = mkOutcome (Normal tt) w
      (List.map Map_AddLayer (filter has_source (array_of (Layers m)))).
Proof.
  intros Hmap Hcur Hobj. rewrite <- (array_of_guarded Layers) in Hobj |- *.
  remember (guarded Layers (Some m)) as v eqn:Hv.
  unfold AddLayersWithSources, bind, read; simpl. rewrite Hcur, <- Hv.
  destruct v as [| | b | n | s | l | ps]; try reflexivity.
  destruct l as [| x l]; [reflexivity |].
  simpl array_of in *.
  change (negb (Datatypes.length (x :: l) =? 0)%nat) with true. cbv iota.
  rewrite layers_loop by assumption. reflexivity.
Qed.

Lemma AddDataSources_run (w : World) (m : MapDefinition) :
  this_map w = true ->
  this_current w = Some m ->
  objects (array_of (DataSources m)) ->
  AddDataSources w
  = mkOutcome (Normal tt) w (flat_map source_calls (array_of (DataSources m))).
Proof.
  intros Hmap Hcur Hobj. rewrite <- (array_of_guarded DataSources) in Hobj |- *.
  remember (guarded DataSources (Some m)) as v eqn:Hv.
  unfold AddDataSources, bind, read; simpl. rewrite Hcur, <- Hv.
  destruct v as [| | b | n | s | l | ps]; try reflexivity.
  destruct l as [| x l]; [reflexivity |].
  simpl array_of in *.
  change (negb (Datatypes.length (x :: l) =? 0)%nat) with true. cbv iota.
  rewrite sources_loop by assumption. reflexivity.
Qed.

Lemma source_calls_add_no_layer (l d : jsval) :
  ~ In (Map_AddLayer l) (source_calls d).
Proof.
  unfold source_calls.
  destruct (truthy (member d "name") && truthy (member d "data"))%bool;
    [| intros []].
  destruct (truthy (member (member d "data") "cluster")); simpl;
    intros H; repeat (destruct H as [H | H]; [discriminate H |]); exact H.
Qed.

End Loops.

(** C2 (as the code has it). When the style is ready, the sources of
    the current map that have a name and data are added, and then a
    layer of the current map is attached exactly when its own [source]
    property is set (truthy); whether that property names a source that
    was added is not looked at. *)
Theorem style_ready_attaches_layers_with_a_source
  {lib : Collaborators} (w : World) (m : MapDefinition) (g : Group)
  (Hready : ready w m g)
  (Hsources : objects (array_of (DataSources m)))
  (Hlayers : objects (array_of (Layers m))) :
  let o := OnMapStyleChanged_Handler w in
  result o = Normal tt /\
  effects o
  = Map_SetClickableMap
    :: flat_map source_calls (array_of (DataSources m))
    ++ List.map Map_AddLayer (filter has_source (array_of (Layers m)))
    ++ [Map_ApplyLegendStylesToMapLayers (LayerIDs m) (OfControl (legend g));
        Map_UpdateMapLayersWithLegendState
          (LayerIDs m) (OfControl (legend g)) (Store_Opacity (Store w))] /\
  (forall l,
      In (Map_AddLayer l) (effects o) <->
      In l (array_of (Layers m)) /\ truthy (member l "source") = true).
Proof.
  destruct Hready as (Hmap & Hcur & Hgrp & Hmenu).
  assert (Hrun : OnMapStyleChanged_Handler w
                 = mkOutcome (Normal tt) w
                     (Map_SetClickableMap
                      :: flat_map source_calls (array_of (DataSources m))
                      ++ List.map Map_AddLayer
                           (filter has_source (array_of (Layers m)))
                      ++ [Map_ApplyLegendStylesToMapLayers
                            (LayerIDs m) (OfControl (legend g));
                          Map_UpdateMapLayersWithLegendState
                            (LayerIDs m) (OfControl (legend g))
                            (Store_Opacity (Store w))])).
  { unfold OnMapStyleChanged_Handler.
    etransitivity.
    - eapply bind_runs; [run_step | cbv beta].
      eapply bind_runs; [run_step | cbv beta].
      eapply bind_runs;
        [apply AddDataSources_run with (m := m); assumption | cbv beta].
      eapply bind_runs;
        [apply AddLayersWithSources_run with (m := m); assumption | cbv beta].
      run_seq. reflexivity.
    - simpl. reflexivity. }
  cbv zeta. rewrite Hrun; simpl.
  split; [reflexivity |]. split; [reflexivity |].
  intros l. split.
  - intros [H | H]; [discriminate H |].
    apply in_app_or in H. destruct H as [H | H].
    + apply in_flat_map in H. destruct H as (d & _ & H).
      exfalso. exact (source_calls_add_no_layer _ _ H).
    + apply in_app_or in H. destruct H as [H | H].
      * apply in_map_iff in H. destruct H as (l' & Heq & H).
        injection Heq as ->. apply filter_In in H. exact H.
      * simpl in H. destruct H as [H | [H | []]]; discriminate H.
  - intros [Hin Hsrc]. right. apply in_or_app. right.
    apply in_or_app. left. apply in_map. apply filter_In. split; assumption.
Qed.

Lemma style_ready_attaches_layers_with_a_source_witness :
  let o := OnMapStyleChanged_Handler Demo.loaded in
  In (Map_AddLayer (JObj [("id", JStr "odhf"); ("source", JStr "odhf-points")]))
     (effects o) /\
  ~ In (Map_AddLayer (JObj [("id", JStr "draft")])) (effects o).
Proof.
  assert (Hready : ready Demo.loaded Demo.odhf
                     (mkGroup (mkLegend (Legend Demo.odhf) (FullTitle Demo.odhf)
                                        JNull (Subtitle Demo.odhf) None)
                              (mkOpacity (JNum 0.75) (Some "Toc_Opacity_Title")
                                         (Some "Toc_Opacity_Label"))))
    by (repeat split; reflexivity).
  assert (Hsources : objects (array_of (DataSources Demo.odhf)))
    by (repeat constructor).
  assert (Hlayers : objects (array_of (Layers Demo.odhf)))
    by (repeat constructor).
  destruct (@style_ready_attaches_layers_with_a_source
              Demo.lib Demo.loaded _ _ Hready Hsources Hlayers)
    as (_ & _ & Hiff).
  cbv zeta. split.
  - apply (proj2 (Hiff _)). split; [| reflexivity].
    vm_compute. left. reflexivity.
  - intros H. apply (proj1 (Hiff _)) in H. destruct H as [_ H].
    vm_compute in H. discriminate H.
Defined.

(** C2, as stated, fails: on the style-ready event of the demo map the
    only source added is "odhf-points", and the layer whose source is
    "composite", which names no data source of the map, is attached all
    the same. *)
Lemma layer_attached_without_added_source :
  let composite := JObj [("id", JStr "csd-search"); ("source", JStr "composite")] in
  let o := OnMapStyleChanged_Handler Demo.loaded in
  result o = Normal tt /\
  In composite (array_of (Layers Demo.odhf)) /\
  member composite "source" = JStr "composite" /\
  added_sources (effects o) = [JStr "odhf-points"] /\
  In (Map_AddLayer composite) (effects o).
Proof.
  vm_compute.
  split; [reflexivity |]. split; [right; left; reflexivity |].
  split; [reflexivity |]. split; [reflexivity |].
  right. right. right. right. left. reflexivity.
Qed.

(** The callback of [ReloadTable], run for the [k]-th outstanding
    request. *)
Lemma FetchDone_runs {lib : Collaborators} (w : World) (m : MapDefinition)
      (k : nat) (r : jsval) :
  this_current w = Some m ->
  k < length (pending w) ->
  dispatch (FetchDone k r) w
  = mkOutcome (Normal tt)
      (set_table (Some (mkTable m r)) (set_pending (remove_nth k (pending w)) w))
      [Current_UpdateTable m r; New_Table "table" m;
       Table_SetMessageHref "#lode-search"].
Proof.
  intros Hcur Hk. unfold dispatch. etransitivity.
  - eapply bind_runs; [run_step | cbv beta].
    apply Nat.ltb_lt in Hk. rewrite Hk.
    eapply bind_runs; [run_step | cbv beta].
    unfold ReloadTable_then.
    assert (Hcur' : this_current (set_pending (remove_nth k (pending w)) w) = Some m)
      by exact Hcur.
    eapply bind_runs; [run_step | cbv beta].
    eapply bind_runs; [run_step | cbv beta].
    eapply bind_runs; [run_step | cbv beta].
    eapply bind_runs; [run_step | cbv beta].
    eapply bind_runs; [run_step | cbv beta].
    eapply bind_runs; [reflexivity | cbv beta].
    reflexivity.
  - reflexivity.
Qed.

(** C1 (as the code has it). The completion of a table request is not
    tagged and nothing is compared when it arrives: whichever
    outstanding request completes, its result is handed to the map
    definition that is current at that moment and the table is built
    anew from it.  In particular the completion of a request that was
    issued before a map selection updates the table of the newly
    selected map. *)
Theorem any_completion_updates_the_table
  {lib : Collaborators} (w : World) (m : MapDefinition) (g : Group)
  (k : nat) (r : jsval)
  (Hready : ready w m g)
  (Hk : k < length (pending w)) :
  dispatch (FetchDone k r) w
  = mkOutcome (Normal tt)
      (set_table (Some (mkTable m r)) (set_pending (remove_nth k (pending w)) w))
      [Current_UpdateTable m r; New_Table "table" m;
       Table_SetMessageHref "#lode-search"] /\
  (forall id m',
      let selected := world (OnMapSelected_Handler id m' w) in
      let o := dispatch (FetchDone k r) selected in
      effects o = [Current_UpdateTable m' r; New_Table "table" m';
                   Table_SetMessageHref "#lode-search"] /\
      this_table (world o) = Some (mkTable m' r)).
Proof.
  destruct Hready as (Hmap & Hcur & Hgrp & Hmenu).
  split; [apply FetchDone_runs; assumption |].
  intros id m'. cbv zeta.
  assert (Hsel : exists w',
             world (OnMapSelected_Handler id m' w) = w' /\
             this_current w' = Some m' /\
             pending w' = pending w ++ [(Core_root ++ str (TableUrl m'))%string]).
  { eexists. split; [reflexivity |].
    try apply current_is_definition in Hcur.
  destruct w as [cfg cur mp grp mn tb st en pd]; simpl in *; subst.
    split; reflexivity. }
  destruct Hsel as (w' & -> & Hcur' & Hpend').
  rewrite (@FetchDone_runs lib w' m' k r Hcur').
  - split; reflexivity.
  - rewrite Hpend', length_app. lia.
Qed.

Lemma any_completion_updates_the_table_witness :
  effects (dispatch (MapSelected (JStr "odef") Demo.odef) Demo.started)
  = [Popup_Hide "maps"; Store_set K_Map (JStr "odef");
     Set_current (Some Demo.odef); Map_SetStyle (JStr "mapbox://styles/odef");
     Dom_Empty "table"; Net_JSON "/data/odef.json";
     Legend_Reload (Legend Demo.odef) (FullTitle Demo.odef) (Subtitle Demo.odef)] /\
  dispatch (FetchDone 0 (JStr "rows of odhf")) Demo.started
  = mkOutcome (Normal tt) Demo.loaded
      [Current_UpdateTable Demo.odhf (JStr "rows of odhf");
       New_Table "table" Demo.odhf;
       Table_SetMessageHref "#lode-search"].
Proof.
  assert (Hready : ready Demo.started Demo.odhf
                     (mkGroup (mkLegend (Legend Demo.odhf) (FullTitle Demo.odhf)
                                        JNull (Subtitle Demo.odhf) None)
                              (mkOpacity (JNum 0.75) (Some "Toc_Opacity_Title")
                                         (Some "Toc_Opacity_Label"))))
    by (repeat split; vm_compute; reflexivity).
  assert (Hk : 0 < length (pending Demo.started)) by (vm_compute; lia).
  destruct (@any_completion_updates_the_table Demo.lib Demo.started _ _ 0
              (JStr "rows of odhf") Hready Hk) as (Hdone & _).
  cbv zeta. split; [vm_compute; reflexivity |].
  rewrite Hdone. vm_compute. reflexivity.
Defined.

(** C1, as stated, fails.  The constructor issues the request for the
    table of the first map (generation 0); the user selects another map
    (generation 1), which issues a second request; the first request
    then completes.  Its result is not discarded: it is handed to the
    newly selected map and the table is built from it. *)
Lemma stale_completion_updates_the_table :
  let history := [MapSelected (JStr "odef") Demo.odef] in
  let before := world (run history Demo.started) in
  let o := dispatch (FetchDone 0 (JStr "rows of odhf")) before in
  pending Demo.started = ["/data/odhf.json"] /\
  generation [] = 0%nat /\
  generation history = 1%nat /\
  pending before = ["/data/odhf.json"; "/data/odef.json"] /\
  this_table before = None /\
  result o = Normal tt /\
  effects o = [Current_UpdateTable Demo.odef (JStr "rows of odhf");
               New_Table "table" Demo.odef;
               Table_SetMessageHref "#lode-search"] /\
  this_table (world o) = Some (mkTable Demo.odef (JStr "rows of odhf")) /\
  pending (world o) = ["/data/odef.json"].
Proof. vm_compute. repeat split; reflexivity. Qed.

(** X18. When the configuration has no access token, [AddMap] throws
    before any map is made, catches what it threw and logs it to the
    console, and returns normally: no map is created, no handler is
    hooked up and [this.map] stays unset. *)
Theorem missing_token_is_caught_and_logged
  {lib : Collaborators} (w : World)
  (Htoken : truthy (access_token (this_config w)) = false) :
  AddMap w
  = mkOutcome (Normal tt) w [Console_error (Thrown (JStr token_message))].
Proof.
  unfold AddMap, try_catch, bind at 1, read at 1; simpl.
  unfold bind at 1. rewrite Htoken. reflexivity.
Qed.

Lemma missing_token_is_caught_and_logged_witness :
  let w := boot Demo.config_no_token Demo.store Demo.live_map in
  truthy (access_token Demo.config_no_token) = false /\
  result (AddMap w) = Normal tt /\
  effects (AddMap w) = [Console_error (Thrown (JStr token_message))] /\
  this_map (world (AddMap w)) = false.
Proof.
  cbv zeta. split; [reflexivity |].
  rewrite (@missing_token_is_caught_and_logged Demo.lib
             (boot Demo.config_no_token Demo.store Demo.live_map) eq_refl).
  repeat split; reflexivity.
Defined.

(** C8. Without an access token the error of the map construction is
    to be caught and logged and the application is to go on without a
    map.  It is caught and logged, but the constructor does not return:
    [AddMap] logs the error and returns, [AddSearch] runs, and the first
    use of the missing map in [AddBaseControls] throws a TypeError out
    of the constructor; no legend group, no menu and no table request
    are made. *)
Lemma constructor_throws_without_token :
  let o := constructor Demo.config_no_token
             (boot Demo.config_no_token Demo.store Demo.live_map) in
  result o = Throw (TypeError "this.map") /\
  effects o
  = [Set_current (Some Demo.odhf);
     Console_error (Thrown (JStr token_message));
     Factory_SearchControl (JArr [Demo.montreal]) "Search_Placeholder" "Search_Title";
     Search_Place "search";
     On C_search "Change" H_OnSearchChange;
     Search_SetInputId "lode-search";
     Factory_FullscreenControl "FullScreen_Title";
     Factory_NavigationControl false true
       "Navigation_ZoomIn_Title" "Navigation_ZoomOut_Title";
     Factory_ScaleControl "metric"] /\
  this_map (world o) = false /\
  this_group (world o) = None /\
  this_menu (world o) = false /\
  pending (world o) = [].
Proof. vm_compute. repeat split; reflexivity. Qed.

(** *** What a statement keeps, and what it calls *)

Section Frames.

Context {A B X : Type} (f : World -> X) (P : Effect -> bool).

Lemma keeps_ret (a : A) : keeps f (ret a).
Proof. intros w. reflexivity. Qed.

Lemma keeps_throw (e : exn) : keeps f (@throw A e).
Proof. intros w. reflexivity. Qed.

Lemma keeps_call (e : Effect) : keeps f (call e).
Proof. intros w. reflexivity. Qed.

Lemma keeps_read (g : World -> A) : keeps f (read g).
Proof. intros w. reflexivity. Qed.

Lemma keeps_update (g : World -> World) :
  (forall w, f (g w) = f w) -> keeps f (update g).
Proof. intros H w. apply H. Qed.

Lemma keeps_bind (m : M A) (k : A -> M B) :
  keeps f m -> (forall a, keeps f (k a)) -> keeps f (bind m k).
Proof.
  intros Hm Hk w. unfold bind. specialize (Hm w).
  destruct (m w) as [[a | e] w1 e1]; simpl in *.
  - rewrite (Hk a w1). exact Hm.
  - exact Hm.
Qed.

Lemma only_ret (a : A) : only P (ret a).
Proof. intros w. reflexivity. Qed.

Lemma only_throw (e : exn) : only P (@throw A e).
Proof. intros w. reflexivity. Qed.

Lemma only_call (e : Effect) : P e = true -> only P (call e).
Proof. intros H w. simpl. rewrite H. reflexivity. Qed.

Lemma only_read (g : World -> A) : only P (read g).
Proof. intros w. reflexivity. Qed.

Lemma only_update (g : World -> World) : only P (update g).
Proof. intros w. reflexivity. Qed.

Lemma only_bind (m : M A) (k : A -> M B) :
  only P m -> (forall a, only P (k a)) -> only P (bind m k).
Proof.
  intros Hm Hk w. unfold bind. specialize (Hm w).
  destruct (m w) as [[a | e] w1 e1]; simpl in *.
  - rewrite forallb_app, Hm. apply (Hk a w1).
  - exact Hm.
Qed.

End Frames.

Section Frames_loops.

Context {X : Type} (f : World -> X) (P : Effect -> bool).

Lemma keeps_try_catch (body : M unit) (h : exn -> M unit) :
  keeps f body -> (forall e, keeps f (h e)) -> keeps f (try_catch body h).
Proof.
  intros Hb Hh w. unfold try_catch. specialize (Hb w).
  destruct (body w) as [[a | e] w1 e1]; simpl in *.
  - exact Hb.
  - rewrite (Hh e w1). exact Hb.
Qed.

Lemma only_try_catch (body : M unit) (h : exn -> M unit) :
  only P body -> (forall e, only P (h e)) -> only P (try_catch body h).
Proof.
  intros Hb Hh w. unfold try_catch. specialize (Hb w).
  destruct (body w) as [[a | e] w1 e1]; simpl in *.
  - exact Hb.
  - rewrite forallb_app, Hb. apply (Hh e w1).
Qed.

Lemma keeps_for_each {A} (body : A -> M unit) (l : list A) :
  (forall a, keeps f (body a)) -> keeps f (for_each body l).
Proof.
  intros Hb. induction l as [| a l IH]; simpl.
  - apply keeps_ret.
  - apply keeps_bind; [apply Hb | intros _; exact IH].
Qed.

Lemma only_for_each {A} (body : A -> M unit) (l : list A) :
  (forall a, only P (body a)) -> only P (for_each body l).
Proof.
  intros Hb. induction l as [| a l IH]; simpl.
  - apply only_ret.
  - apply only_bind; [apply Hb | intros _; exact IH].
Qed.

End Frames_loops.

(** Statement by statement, through the branches. *)
Ltac frame_step :=
  first
    [ apply keeps_ret | apply keeps_throw | apply keeps_call | apply keeps_read
    | apply keeps_update; intros; reflexivity
    | apply keeps_bind; [| intros]
    | apply keeps_try_catch; [| intros]
    | apply keeps_for_each; intros
    | apply only_ret | apply only_throw | apply only_read | apply only_update
    | apply only_call; reflexivity
    | apply only_bind; [| intros]
    | apply only_try_catch; [| intros]
    | apply only_for_each; intros
    | match goal with
      | |- keeps _ (match ?x with _ => _ end) => destruct x
      | |- only _ (match ?x with _ => _ end) => destruct x
      end ].

Ltac frame :=
  unfold the_map, the_current, the_group, the_menu, the_table,
    Store_assign, get_or_throw, index_or_throw;
  repeat frame_step.

Section Startup.

Context {lib : Collaborators}.

Lemma outcome_eta {A} (o : Outcome A) :
  o = mkOutcome (result o) (world o) (effects o).
Proof. destruct o; reflexivity. Qed.

Lemma try_catch_log_returns (body : M unit) (g : exn -> Effect) (w : World) :
  result (try_catch body (fun err => call (g err)) w) = Normal tt.
Proof.
  unfold try_catch. destruct (body w) as [[[] | e] w1 e1]; reflexivity.
Qed.

Lemma AddMap_returns (w : World) : result (AddMap w) = Normal tt.
Proof. apply try_catch_log_returns. Qed.

Lemma AddMap_keeps_current : keeps current_value AddMap.
Proof. unfold AddMap. frame. Qed.

Lemma AddMap_keeps_config : keeps this_config AddMap.
Proof. unfold AddMap. frame. Qed.

Lemma AddMap_makes_no_search_control : only not_search_control AddMap.
Proof. unfold AddMap. frame. Qed.

End Startup.

Section Startup_frames.

Context {lib : Collaborators}.

Lemma keeps_array_map {X} (f : World -> X) (g : jsval -> M jsval) (l : list jsval) :
  (forall a, keeps f (g a)) -> keeps f (array_map g l).
Proof.
  intros Hg. induction l as [| a l IH]; simpl.
  - apply keeps_ret.
  - apply keeps_bind; [apply Hg | intros y].
    apply keeps_bind; [exact IH | intros ys]. apply keeps_ret.
Qed.

Lemma AddSearch_keeps_current : keeps current_value AddSearch.
Proof.
  unfold AddSearch. frame.
  apply keeps_array_map. intros row. unfold search_item. frame.
Qed.

Lemma after_search_keeps_current : keeps current_value after_search.
Proof.
  unfold after_search, AddBaseControls, AddGroup, AddMenu, ReloadTable. frame.
Qed.

Lemma after_search_keeps_config : keeps this_config after_search.
Proof.
  unfold after_search, AddBaseControls, AddGroup, AddMenu, ReloadTable. frame.
Qed.

Lemma after_search_makes_no_search_control : only not_search_control after_search.
Proof.
  unfold after_search, AddBaseControls, AddGroup, AddMenu, ReloadTable. frame.
Qed.

Lemma world_bind_runs {A B} (m : M A) (k : A -> M B) (w w1 : World)
      (a : A) (e1 : list Effect) :
  m w = mkOutcome (Normal a) w1 e1 ->
  world (bind m k w) = world (k a w1).
Proof. intros Hm. unfold bind. rewrite Hm. reflexivity. Qed.

Lemma startup_keeps_current :
  keeps current_value
        (AddMap ;; AddSearch ;; AddBaseControls ;; AddGroup ;; AddMenu ;; ReloadTable).
Proof.
  apply keeps_bind; [apply AddMap_keeps_current | intros _].
  apply keeps_bind; [apply AddSearch_keeps_current | intros _].
  exact after_search_keeps_current.
Qed.

Lemma definition_is_current (w : World) (m : MapDefinition) :
  current_value w = Def m -> this_current w = Some m.
Proof. unfold this_current. intros ->. reflexivity. Qed.

Lemma constructor_current (cfg : Config) (w : World) :
  current_value (world (constructor cfg w)) = selected cfg (Store w).
Proof.
  unfold constructor, selected.
  do 6 (erewrite world_bind_runs by reflexivity; cbv beta).
  cbn [current_value set_current_value this_config set_config Store].
  destruct (catalog_property (str (Store_Map (Store w))) (maps cfg)) as [| m | n].
  - erewrite world_bind_runs by reflexivity.
    rewrite startup_keeps_current.
    cbn [current_value set_current set_current_value this_config set_config].
    destruct (Util_FirstProperty (maps cfg)); reflexivity.
  - erewrite world_bind_runs by reflexivity.
    rewrite startup_keeps_current. reflexivity.
  - erewrite world_bind_runs by reflexivity.
    rewrite startup_keeps_current. reflexivity.
Qed.

End Startup_frames.

Section Startup_runs.

Context {lib : Collaborators}.

Lemma AddMap_runs (w : World) (m : MapDefinition) :
  truthy (access_token (this_config w)) = true ->
  this_current w = Some m ->
  AddMap w
  = mkOutcome (Normal tt) (set_map true w)
      [Factory_Map "map"
         (member (member (credentials (this_config w)) "mapbox") "accessToken")
         (Style m)
         (JArr [Store_Lng (Store w); Store_Lat (Store w)])
         (Store_Zoom (Store w));
       Map_SetMaxBounds maxExtent;
       On C_map "StyleChanged" H_OnMapStyleChanged;
       On C_map "MoveEnd" H_OnMapMoveEnd;
       On C_map "ZoomEnd" H_OnMapZoomEnd;
       On C_map "Click" H_OnMapClick].
Proof.
  intros Htoken Hcur.
  unfold AddMap, try_catch.
  match goal with
  | |- context [result (?body w)] =>
      assert (Hbody : body w
                      = mkOutcome (Normal tt) (set_map true w)
                          [Factory_Map "map"
                             (member (member (credentials (this_config w)) "mapbox")
                                     "accessToken")
                             (Style m)
                             (JArr [Store_Lng (Store w); Store_Lat (Store w)])
                             (Store_Zoom (Store w));
                           Map_SetMaxBounds maxExtent;
                           On C_map "StyleChanged" H_OnMapStyleChanged;
                           On C_map "MoveEnd" H_OnMapMoveEnd;
                           On C_map "ZoomEnd" H_OnMapZoomEnd;
                           On C_map "Click" H_OnMapClick])
  end.
  { etransitivity.
    - eapply bind_runs; [run_step | cbv beta].
      rewrite Htoken.
      run_seq. reflexivity.
    - reflexivity. }
  cbv zeta. rewrite Hbody. reflexivity.
Qed.

Lemma search_item_runs (i : jsval) (w : World) :
  nullish i = false ->
  search_item i w = mkOutcome (Normal (search_item_of i)) w [].
Proof.
  intros Hi. destruct i; try discriminate Hi; reflexivity.
Qed.

Lemma array_map_search_item_runs (rows : list jsval) (w : World) :
  objects rows ->
  array_map search_item rows w
  = mkOutcome (Normal (List.map search_item_of rows)) w [].
Proof.
  intros Hrows. induction Hrows as [| i rows Hi _ IH]; [reflexivity |].
  simpl array_map. etransitivity.
  - eapply bind_runs; [apply search_item_runs; exact Hi | cbv beta].
    eapply bind_runs; [exact IH | cbv beta]. reflexivity.
  - reflexivity.
Qed.

Lemma AddSearch_runs (w : World) (rows : list jsval) :
  items (search (this_config w)) = JArr rows ->
  objects rows ->
  AddSearch w
  = mkOutcome (Normal tt)
      (set_config (set_items (JArr (List.map search_item_of rows)) (this_config w)) w)
      [Factory_SearchControl (JArr (List.map search_item_of rows))
         (Core_Nls "Search_Placeholder") (Core_Nls "Search_Title");
       Search_Place "search";
       On C_search "Change" H_OnSearchChange;
       Search_SetInputId "lode-search"].
Proof.
  intros Hitems Hrows. unfold AddSearch. etransitivity.
  - eapply bind_runs; [run_step | cbv beta].
    rewrite Hitems.
    eapply bind_runs; [apply array_map_search_item_runs; exact Hrows | cbv beta].
    run_seq. reflexivity.
  - reflexivity.
Qed.

End Startup_runs.

Section Startup_returns.

Context {lib : Collaborators}.

Lemma AddBaseControls_runs (w : World) :
  this_map w = true ->
  exists es, AddBaseControls w = mkOutcome (Normal tt) w es.
Proof.
  intros Hmap. eexists. unfold AddBaseControls. run_seq. reflexivity.
Qed.

Lemma AddGroup_runs (w : World) (m : MapDefinition) :
  this_map w = true ->
  this_current w = Some m ->
  exists es,
    AddGroup w
    = mkOutcome (Normal tt) (set_group (Some (fresh_group m (Store w))) w) es.
Proof.
  intros Hmap Hcur. eexists. unfold AddGroup. run_seq. reflexivity.
Qed.

Lemma AddMenu_runs (w : World) :
  this_map w = true ->
  exists es, AddMenu w = mkOutcome (Normal tt) (set_menu true w) es.
Proof.
  intros Hmap. eexists. unfold AddMenu. run_seq. reflexivity.
Qed.

Lemma ReloadTable_runs (w : World) (m : MapDefinition) :
  this_current w = Some m ->
  ReloadTable w
  = mkOutcome (Normal tt)
      (set_pending (pending w ++ [(Core_root ++ str (TableUrl m))%string]) w)
      [Dom_Empty "table"; Net_JSON (Core_root ++ str (TableUrl m))].
Proof.
  intros Hcur. unfold ReloadTable. etransitivity; [run_seq; reflexivity |].
  reflexivity.
Qed.

Lemma after_search_runs (w : World) (m : MapDefinition) :
  this_map w = true ->
  this_current w = Some m ->
  exists w' es,
    after_search w = mkOutcome (Normal tt) w' es /\
    ready w' m (fresh_group m (Store w)) /\
    this_config w' = this_config w /\
    this_table w' = this_table w /\
    pending w' = pending w ++ [(Core_root ++ str (TableUrl m))%string].
Proof.
  intros Hmap Hcur.
  destruct (AddBaseControls_runs w Hmap) as (es1 & H1).
  destruct (@AddGroup_runs w m Hmap Hcur) as (es2 & H2).
  destruct (AddMenu_runs (set_group (Some (fresh_group m (Store w))) w) Hmap)
    as (es3 & H3).
  eexists. eexists. split.
  - unfold after_search.
    eapply bind_runs; [exact H1 | cbv beta].
    eapply bind_runs; [exact H2 | cbv beta].
    eapply bind_runs; [exact H3 | cbv beta].
    apply ReloadTable_runs with (m := m). exact Hcur.
  - repeat split; simpl; assumption.
Qed.

End Startup_returns.

(** C6. A stored id that is no key of the catalog is to select the
    first entry of the catalog.  For a stored id that names something
    every object inherits (here "toString") it does not: the catalog
    is a plain object, [this.config.maps["toString"]] is the inherited
    function, which is truthy, so it stays in [this.current] and the
    fallback is skipped.  The constructor returns, having created the
    map with the style [undefined] and the legend from [undefined] and
    requested the table from the address ending in "undefined". *)
Lemma inherited_id_suppresses_the_fallback :
  let st := mkStore (JStr "toString") (JNum 60.847) (JNum (-96.854))
                    (JNum 3) (JNum 0.75) in
  let o := constructor Demo.config (boot Demo.config st Demo.live_map) in
  assoc "toString" (maps Demo.config) = None /\
  Util_FirstProperty (maps Demo.config) = Some Demo.odhf /\
  result o = Normal tt /\
  current_value (world o) = Inherited "toString" /\
  this_current (world o) = None /\
  effects o
  = Set_current_inherited "toString"
    :: startup_calls Demo.config st Demo.live_map no_members
         (JArr [Demo.montreal]) /\
  In (Factory_Map "map" (JStr "pk.token") JUndefined
        (JArr [JNum (-96.854); JNum 60.847]) (JNum 3))
     (effects o) /\
  pending (world o) = ["/undefined"].
Proof.
  vm_compute. repeat split; try reflexivity. right. left. reflexivity.
Qed.

Section Search_index.

Context {lib : Collaborators}.

Lemma raw_row_is_object (r : jsval * jsval * (jsval * jsval) * (jsval * jsval)) :
  nullish (raw_row r) = false.
Proof. destruct r as [[[id name] [a b]] [c d]]. reflexivity. Qed.

Lemma search_item_of_raw_row (r : jsval * jsval * (jsval * jsval) * (jsval * jsval)) :
  search_item_of (raw_row r) = derived_item r.
Proof. destruct r as [[[id name] [a b]] [c d]]. reflexivity. Qed.

Lemma derived_rows (rows : list (jsval * jsval * (jsval * jsval) * (jsval * jsval))) :
  objects (List.map raw_row rows) /\
  List.map search_item_of (List.map raw_row rows) = List.map derived_item rows.
Proof.
  split.
  - apply Forall_forall. intros x Hx. apply in_map_iff in Hx.
    destruct Hx as (r & <- & _). apply raw_row_is_object.
  - rewrite map_map. apply map_ext. intros r. apply search_item_of_raw_row.
Qed.

(** The constructor up to [AddMap]: the configuration is in place
    and no search control has been made. *)
Lemma constructor_up_to_AddMap (cfg : Config) (w : World) :
  exists w1 pre,
    this_config w1 = cfg /\
    forallb not_search_control pre = true /\
    forall o,
      (AddMap ;; AddSearch ;; AddBaseControls ;; AddGroup ;; AddMenu ;;
       ReloadTable) w1 = o ->
      constructor cfg w = mkOutcome (result o) (world o) (pre ++ effects o).
Proof.
  unfold constructor.
  destruct (catalog_property (str (Store_Map (Store w))) (maps cfg))
    as [| m1 | n] eqn:Hkey.
  - exists (set_current (Util_FirstProperty (maps cfg))
                        (set_current_value NoCurrent (set_config cfg w))),
      [Set_current None; Set_current (Util_FirstProperty (maps cfg))].
    split; [reflexivity |]. split; [reflexivity |]. intros o Ho.
    etransitivity.
    + do 5 (eapply bind_runs; [reflexivity | cbv beta]).
      cbn [current_value set_current_value this_config set_config Store].
      rewrite Hkey.
      eapply bind_runs; [reflexivity | cbv beta].
      eapply bind_runs; [reflexivity | cbv beta].
      cbn [current_value set_current_value this_config set_config].
      subst o. apply outcome_eta.
    + subst o.
      cbn [app this_config current_value set_current_value set_config Store].
      rewrite Hkey. reflexivity.
  - exists (set_current_value (Def m1) (set_config cfg w)), [Set_current (Some m1)].
    split; [reflexivity |]. split; [reflexivity |]. intros o Ho.
    etransitivity.
    + do 5 (eapply bind_runs; [reflexivity | cbv beta]).
      cbn [current_value set_current_value this_config set_config Store].
      rewrite Hkey.
      do 2 (eapply bind_runs; [reflexivity | cbv beta]).
      subst o. apply outcome_eta.
    + subst o.
      cbn [app this_config current_value set_current_value set_config Store].
      rewrite Hkey. reflexivity.
  - exists (set_current_value (Inherited n) (set_config cfg w)),
      [Set_current_inherited n].
    split; [reflexivity |]. split; [reflexivity |]. intros o Ho.
    etransitivity.
    + do 5 (eapply bind_runs; [reflexivity | cbv beta]).
      cbn [current_value set_current_value this_config set_config Store].
      rewrite Hkey.
      do 2 (eapply bind_runs; [reflexivity | cbv beta]).
      subst o. apply outcome_eta.
    + subst o.
      cbn [app this_config current_value set_current_value set_config Store].
      rewrite Hkey. reflexivity.
Qed.

End Search_index.

(** C10. Each raw row [[id, name, minLng, minLat, maxLng, maxLat]] of
    the search configuration becomes the item with that id and name,
    the label "name (id)" and the extent [[[minLng, minLat], [maxLng,
    maxLat]]].  During startup the rows are replaced by their items
    once (the configuration afterwards holds the items of the rows,
    not items of items), and the single search control that is made is
    made from these items. *)
Theorem search_items_are_derived_once
  {lib : Collaborators} (cfg : Config) (w : World)
  (rows : list (jsval * jsval * (jsval * jsval) * (jsval * jsval)))
  (Hitems : items (search cfg) = JArr (List.map raw_row rows)) :
  let o := constructor cfg w in
  (forall id name minLng minLat maxLng maxLat w0,
      search_item (JArr [id; name; minLng; minLat; maxLng; maxLat]) w0
      = mkOutcome
          (Normal (JObj [("id", id);
                         ("name", name);
                         ("label", JStr (str name ++ " (" ++ str id ++ ")"));
                         ("extent", JArr [JArr [minLng; minLat];
                                          JArr [maxLng; maxLat]])]))
          w0 []) /\
  (forall id name : string,
      (str (JStr name) ++ " (" ++ str (JStr id) ++ ")")%string
      = (name ++ " (" ++ id ++ ")")%string) /\
  items (search (this_config (world o))) = JArr (List.map derived_item rows) /\
  exists before after,
    effects o
    = before
      ++ Factory_SearchControl (JArr (List.map derived_item rows))
           (Core_Nls "Search_Placeholder") (Core_Nls "Search_Title")
      :: after /\
    forallb not_search_control before = true /\
    forallb not_search_control after = true.
Proof.
  cbv zeta. split; [reflexivity |]. split; [reflexivity |].
  destruct (derived_rows rows) as (Hobj & Hmap).
  destruct (constructor_up_to_AddMap cfg w) as (w1 & pre & Hcfg & Hpre & Hrun).
  pose proof (AddMap_returns w1) as HAres.
  pose proof (AddMap_keeps_config w1) as HAcfg.
  pose proof (AddMap_makes_no_search_control w1) as HAonly.
  remember (AddMap w1) as oA eqn:HoA.
  destruct oA as [rA wA eA]; simpl in HAres, HAcfg, HAonly; subst rA.
  rewrite Hcfg in HAcfg.
  pose proof (@AddSearch_runs lib wA (List.map raw_row rows)) as HS.
  rewrite HAcfg in HS. specialize (HS Hitems Hobj). rewrite Hmap in HS.
  set (wS := set_config (set_items (JArr (List.map derived_item rows)) cfg) wA) in *.
  pose proof (after_search_keeps_config wS) as HTcfg.
  pose proof (after_search_makes_no_search_control wS) as HTonly.
  rewrite (Hrun (mkOutcome (result (after_search wS)) (world (after_search wS))
                           (eA ++ [Factory_SearchControl
                                     (JArr (List.map derived_item rows))
                                     (Core_Nls "Search_Placeholder")
                                     (Core_Nls "Search_Title");
                                   Search_Place "search";
                                   On C_search "Change" H_OnSearchChange;
                                   Search_SetInputId "lode-search"]
                               ++ effects (after_search wS)))).
  - simpl. split.
    + rewrite HTcfg. reflexivity.
    + exists (pre ++ eA),
        ([Search_Place "search"; On C_search "Change" H_OnSearchChange;
          Search_SetInputId "lode-search"] ++ effects (after_search wS)).
      split; [rewrite <- app_assoc; reflexivity |].
      split.
      * rewrite forallb_app, Hpre, HAonly. reflexivity.
      * rewrite forallb_app, HTonly. reflexivity.
  - eapply bind_runs; [symmetry; exact HoA | cbv beta].
    eapply bind_runs; [exact HS | cbv beta].
    apply outcome_eta.
Qed.

Lemma search_items_are_derived_once_witness :
  let row := (JStr "2466023", JStr "Montreal",
              (JNum (-73.97), JNum 45.41), (JNum (-73.47), JNum 45.70)) in
  items (search Demo.config) = JArr [raw_row row] /\
  items (search (this_config Demo.started)) = JArr [Demo.montreal] /\
  member Demo.montreal "label" = JStr "Montreal (2466023)".
Proof.
  cbv zeta. split; [reflexivity |].
  destruct (@search_items_are_derived_once Demo.lib Demo.config
              (boot Demo.config Demo.store Demo.live_map)
              [(JStr "2466023", JStr "Montreal",
                (JNum (-73.97), JNum 45.41), (JNum (-73.47), JNum 45.70))]
              eq_refl)
    as (_ & _ & Hitems & _).
  split; [exact Hitems | reflexivity].
Defined.

(** ** Further properties of the handlers *)

Section Stability.

Context {A B : Type} (P : World -> Prop).

Lemma stable_ret (a : A) : stable P (ret a).
Proof. intros w H. exact H. Qed.

Lemma stable_throw (e : exn) : stable P (@throw A e).
Proof. intros w H. exact H. Qed.

Lemma stable_call (e : Effect) : stable P (call e).
Proof. intros w H. exact H. Qed.

Lemma stable_read (g : World -> A) : stable P (read g).
Proof. intros w H. exact H. Qed.

Lemma stable_update (g : World -> World) :
  (forall w, P w -> P (g w)) -> stable P (update g).
Proof. intros H w Hw. apply H. exact Hw. Qed.

Lemma stable_bind (m : M A) (k : A -> M B) :
  stable P m -> (forall a, stable P (k a)) -> stable P (bind m k).
Proof.
  intros Hm Hk w Hw. unfold bind. specialize (Hm w Hw).
  destruct (m w) as [[a | e] w1 e1]; simpl in *.
  - apply (Hk a w1 Hm).
  - exact Hm.
Qed.

End Stability.

Lemma stable_for_each {A} (P : World -> Prop) (body : A -> M unit) (l : list A) :
  (forall a, stable P (body a)) -> stable P (for_each body l).
Proof.
  intros Hb. induction l as [| a l IH]; simpl.
  - apply stable_ret.
  - apply stable_bind; [apply Hb | intros _; exact IH].
Qed.

Lemma constructed_set_Store (s : StoreT) (w : World) :
  constructed w -> constructed (set_Store s w).
Proof. intros (m & g & H). exists m, g. exact H. Qed.

Lemma constructed_set_engine (e : Engine) (w : World) :
  constructed w -> constructed (set_engine e w).
Proof. intros (m & g & H). exists m, g. exact H. Qed.

Lemma constructed_set_pending (p : list string) (w : World) :
  constructed w -> constructed (set_pending p w).
Proof. intros (m & g & H). exists m, g. exact H. Qed.

Lemma constructed_set_table (t : option TableWidget) (w : World) :
  constructed w -> constructed (set_table t w).
Proof. intros (m & g & H). exists m, g. exact H. Qed.

Lemma constructed_set_current (m' : MapDefinition) (w : World) :
  constructed w -> constructed (set_current (Some m') w).
Proof.
  intros (m & g & Hmap & Hcur & Hgrp & Hmenu). exists m', g.
  repeat split; assumption.
Qed.

Lemma constructed_set_group (g' : Group) (w : World) :
  constructed w -> constructed (set_group (Some g') w).
Proof.
  intros (m & g & Hmap & Hcur & Hgrp & Hmenu). exists m, g'.
  repeat split; assumption.
Qed.

Lemma constructed_toggled (s : jsval) (w : World) :
  constructed w ->
  constructed (set_group (option_map (toggled s) (this_group w)) w).
Proof.
  intros (m & g & Hmap & Hcur & Hgrp & Hmenu). exists m, (toggled s g).
  repeat split; try assumption. simpl. rewrite Hgrp. reflexivity.
Qed.

(** Statement by statement, for a property carried over. *)
Ltac stable_step :=
  first
    [ apply stable_ret | apply stable_throw | apply stable_call | apply stable_read
    | apply stable_update; intros;
      first [ apply constructed_set_Store | apply constructed_set_engine
            | apply constructed_set_pending | apply constructed_set_table
            | apply constructed_set_current | apply constructed_set_group
            | apply constructed_toggled ];
      assumption
    | apply stable_bind; [| intros]
    | apply stable_for_each; intros
    | match goal with
      | |- stable _ (match ?x with _ => _ end) => destruct x
      end ].

Ltac unfold_handlers :=
  unfold dispatch, OnMapStyleChanged_Handler, OnMapMoveEnd_Handler,
    OnMapZoomEnd_Handler, OnMapClick_Handler, OnSearchChange_Handler,
    OnLegend_Changed, OnOpacitySlider_Changed, OnHomeClick_Handler,
    OnHelpClick_Handler, OnMapSelected_Handler, OnBookmarkSelected_Handler,
    ReloadTable_then, ReloadTable, AddDataSources, AddLayersWithSources,
    the_map, the_current, the_group, the_menu, the_table,
    Store_assign, get_or_throw, index_or_throw.

Ltac unfold_bodies :=
  unfold AddDataSources_body, AddLayersWithSources_body,
    the_map, the_current, the_group, the_menu, the_table,
    Store_assign, get_or_throw, index_or_throw.

Lemma dispatch_stable {lib : Collaborators} (ev : Event) :
  stable constructed (dispatch ev).
Proof.
  destruct ev; unfold_handlers;
    repeat first [stable_step | progress unfold_bodies].
Qed.

Lemma stable_try_catch (P : World -> Prop) (body : M unit) (h : exn -> M unit) :
  stable P body -> (forall e, stable P (h e)) -> stable P (try_catch body h).
Proof.
  intros Hb Hh w Hw. unfold try_catch. specialize (Hb w Hw).
  destruct (body w) as [[a | e] w1 e1]; simpl in *.
  - exact Hb.
  - apply (Hh e w1 Hb).
Qed.

(** X8. Once the constructor has left the application ready (map,
    legend group and menu in place, a map definition current), every
    event leaves it ready, whether its handler returns or throws, and
    so does every sequence of events. *)
Theorem events_keep_the_application_ready
  {lib : Collaborators} (w : World) (Hready : constructed w) :
  (forall ev, constructed (world (dispatch ev w))) /\
  (forall evs, constructed (world (run evs w))).
Proof.
  split.
  - intros ev. apply dispatch_stable. exact Hready.
  - intros evs. revert w Hready.
    induction evs as [| ev evs IH]; intros w Hready; [exact Hready |].
    simpl run. apply stable_bind; [| intros _ w' Hw'; apply IH; exact Hw' | exact Hready].
    apply stable_try_catch; [apply dispatch_stable | intros e; apply stable_ret].
Qed.

Lemma events_keep_the_application_ready_witness :
  constructed Demo.started /\
  constructed
    (world (run [Change Demo.montreal;
                 MapSelected (JStr "odef") Demo.odef;
                 LegendChange (JArr [JBool false]);
                 FetchDone 1 (JStr "rows of odef");
                 BookmarkSelected JNull]
                Demo.started)).
Proof.
  assert (H : constructed Demo.started).
  { exists Demo.odhf, (fresh_group Demo.odhf Demo.store).
    repeat split; vm_compute; reflexivity. }
  split; [exact H |].
  exact (proj2 (@events_keep_the_application_ready Demo.lib Demo.started H) _).
Defined.

(** X7. The handler of an event assigns to no key of the store but its
    own (latitude and longitude for a settled pan, the zoom for a
    settled zoom, the opacity for the slider, the active map for a map
    selection, none for any other event): every other key reads the
    same after the event as before, whether the handler returns or
    throws. *)
Theorem events_write_only_their_keys
  {lib : Collaborators} (ev : Event) (k : StoreKey) (w : World)
  (Hk : ~ In k (writes ev)) :
  Store_read k (Store (world (dispatch ev w))) = Store_read k (Store w).
Proof.
  revert w.
  change (keeps (fun w => Store_read k (Store w)) (dispatch ev)).
  destruct ev; destruct k;
    try (exfalso; apply Hk; simpl; tauto);
    unfold_handlers;
    repeat first [frame_step | progress unfold_bodies].
Qed.

Lemma events_write_only_their_keys_witness :
  Store_read K_Opacity
    (Store (world (dispatch (MapSelected (JStr "odef") Demo.odef) Demo.loaded)))
  = JNum 0.75 /\
  Store_read K_Map
    (Store (world (dispatch (MoveEnd (mkLngLat (JNum 1) (JNum 2))) Demo.loaded)))
  = JStr "odhf".
Proof.
  split.
  - rewrite (@events_write_only_their_keys Demo.lib
               (MapSelected (JStr "odef") Demo.odef) K_Opacity Demo.loaded).
    + vm_compute. reflexivity.
    + simpl. intros [H | []]. discriminate H.
  - rewrite (@events_write_only_their_keys Demo.lib
               (MoveEnd (mkLngLat (JNum 1) (JNum 2))) K_Map Demo.loaded).
    + vm_compute. reflexivity.
    + simpl. intros [H | [H | []]]; discriminate H.
Defined.

(** X9. The handlers of the legend change, the home and help buttons,
    a bookmark selection, the style-ready event, a map click and a
    search selection change nothing in the application or the store:
    whatever state they run in, and whether they return or throw, they
    leave it as it was. *)
Theorem reading_handlers_change_nothing
  {lib : Collaborators} (w : World) :
  world (OnLegend_Changed w) = w /\
  world (OnHomeClick_Handler w) = w /\
  world (OnHelpClick_Handler w) = w /\
  (forall item, world (OnBookmarkSelected_Handler item w) = w) /\
  world (OnMapStyleChanged_Handler w) = w /\
  (forall point lngLat, world (OnMapClick_Handler point lngLat w) = w) /\
  (forall item, world (OnSearchChange_Handler item w) = w).
Proof.
  repeat split; intros; revert w;
    match goal with
    | |- forall w, world (?h w) = w => change (keeps (fun w => w) h)
    end;
    unfold_handlers;
    repeat first [frame_step | progress unfold_bodies].
Qed.

Section Style_handler.

Context {lib : Collaborators}.

Lemma OnMapStyleChanged_runs (w : World) (m : MapDefinition) (g : Group) :
  ready w m g ->
  objects (array_of (DataSources m)) ->
  objects (array_of (Layers m)) ->
  OnMapStyleChanged_Handler w
  = mkOutcome (Normal tt) w
      (Map_SetClickableMap
       :: flat_map source_calls (array_of (DataSources m))
       ++ List.map Map_AddLayer (filter has_source (array_of (Layers m)))
       ++ [Map_ApplyLegendStylesToMapLayers (LayerIDs m) (OfControl (legend g));
           Map_UpdateMapLayersWithLegendState
             (LayerIDs m) (OfControl (legend g)) (Store_Opacity (Store w))]).
Proof.
  intros (Hmap & Hcur & Hgrp & Hmenu) Hsources Hlayers.
  unfold OnMapStyleChanged_Handler. etransitivity.
  - eapply bind_runs; [run_step | cbv beta].
    eapply bind_runs; [run_step | cbv beta].
    eapply bind_runs;
      [apply AddDataSources_run with (m := m); assumption | cbv beta].
    eapply bind_runs;
      [apply AddLayersWithSources_run with (m := m); assumption | cbv beta].
    run_seq. reflexivity.
  - simpl. reflexivity.
Qed.

Lemma applied_last (es : list Effect) (ids : jsval) (lg : LegendLike) (op : jsval) :
  applied (es ++ [Map_UpdateMapLayersWithLegendState ids lg op])
  = Some (ids, lg, op).
Proof.
  induction es as [| e es IH]; [reflexivity |].
  simpl. rewrite IH. reflexivity.
Qed.

Lemma member_source_calls (e : Effect) (ds : jsval) :
  In e (source_calls ds) <->
  (truthy (member ds "name") = true /\ truthy (member ds "data") = true) /\
  (e = Map_AddSource (member ds "name") (member ds "data") \/
   (truthy (member (member ds "data") "cluster") = true /\
    e = Map_AddClusters (JObj [("source", member ds "name")]))).
Proof.
  unfold source_calls.
  destruct (truthy (member ds "name")); destruct (truthy (member ds "data"));
    simpl; try (split; [intros [] | intros [[H1 H2] _]; discriminate]).
  destruct (truthy (member (member ds "data") "cluster")); simpl; split.
  - intros [H | [H | []]]; (split; [split; reflexivity |]); subst; auto.
  - intros [_ [H | [_ H]]]; subst; auto.
  - intros [H | []]. split; [split; reflexivity |]. subst; auto.
  - intros [_ [H | [H _]]]; [subst; auto | discriminate H].
Qed.

(** A loop that meets an element that is [undefined] or [null]: the
    turns before it have run, the access to the element throws. *)
Lemma sources_loop_throws (good rest : list jsval) (bad : jsval) (w : World) :
  this_map w = true ->
  objects good ->
  nullish bad = true ->
  for_each AddDataSources_body (good ++ bad :: rest) w
  = mkOutcome (Throw (TypeError "mapDataSources[i]")) w
      (flat_map source_calls good).
Proof.
  intros Hmap Hgood Hbad.
  induction Hgood as [| d good Hd Hgood IH].
  - simpl. unfold bind at 1.
    unfold AddDataSources_body, get_or_throw, get. rewrite Hbad. reflexivity.
  - simpl app. simpl for_each. etransitivity.
    + eapply bind_runs; [| exact IH].
      assert (Hone : for_each AddDataSources_body [d] w
                     = mkOutcome (Normal tt) w (flat_map source_calls [d]))
        by (apply sources_loop; [exact Hmap | repeat constructor; exact Hd]).
      simpl for_each in Hone. unfold bind at 1 in Hone.
      destruct (AddDataSources_body d w) as [[[] | e] w1 e1]; simpl in Hone.
      * injection Hone as Hw He. subst w1.
        rewrite !app_nil_r in He. rewrite He. reflexivity.
      * discriminate Hone.
    + simpl. try rewrite app_nil_r. reflexivity.
Qed.

End Style_handler.

(** X1. [AddDataSources] adds a source to the map exactly for the data
    sources of the current map that have both a name and data, under
    that name and with that data, and asks for a cluster overlay
    exactly for those among them whose data has [cluster] set, naming
    the source by its name.  It changes nothing in the application. *)
Theorem data_sources_added_with_name_and_data
  {lib : Collaborators} (w : World) (m : MapDefinition)
  (Hmap : this_map w = true)
  (Hcur : this_current w = Some m)
  (Hsources : objects (array_of (DataSources m))) :
  let o := AddDataSources w in
  let usable ds :=
    truthy (member ds "name") = true /\ truthy (member ds "data") = true in
  result o = Normal tt /\
  world o = w /\
  (forall name data,
      In (Map_AddSource name data) (effects o) <->
      exists ds, In ds (array_of (DataSources m)) /\ usable ds /\
                 name = member ds "name" /\ data = member ds "data") /\
  (forall options,
      In (Map_AddClusters options) (effects o) <->
      exists ds, In ds (array_of (DataSources m)) /\ usable ds /\
                 truthy (member (member ds "data") "cluster") = true /\
                 options = JObj [("source", member ds "name")]) /\
  (forall e, In e (effects o) ->
             (exists name data, e = Map_AddSource name data) \/
             (exists options, e = Map_AddClusters options)).
Proof.
  cbv zeta. rewrite AddDataSources_run with (m := m) by assumption. simpl.
  split; [reflexivity |]. split; [reflexivity |].
  split; [| split].
  - intros name data. rewrite in_flat_map. split.
    + intros (ds & Hin & He). apply member_source_calls in He.
      destruct He as (Hus & [He | [_ He]]); [| discriminate He].
      injection He as -> ->. destruct Hus as [H1 H2]. exists ds.
      repeat split; first [assumption | reflexivity].
    + intros (ds & Hin & Hus & -> & ->). exists ds. split; [exact Hin |].
      apply member_source_calls. split; [exact Hus | left; reflexivity].
  - intros options. rewrite in_flat_map. split.
    + intros (ds & Hin & He). apply member_source_calls in He.
      destruct He as (Hus & [He | [Hcl He]]); [discriminate He |].
      injection He as ->. destruct Hus as [H1 H2]. exists ds.
      repeat split; first [assumption | reflexivity].
    + intros (ds & Hin & Hus & Hcl & ->). exists ds. split; [exact Hin |].
      apply member_source_calls.
      split; [exact Hus | right; split; [exact Hcl | reflexivity]].
  - intros e He. apply in_flat_map in He. destruct He as (ds & _ & He).
    apply member_source_calls in He. destruct He as (_ & [-> | [_ ->]]); eauto.
Qed.

Lemma data_sources_added_with_name_and_data_witness :
  effects (AddDataSources Demo.loaded)
  = [Map_AddSource (JStr "odhf-points")
       (JObj [("type", JStr "geojson"); ("cluster", JBool true)]);
     Map_AddClusters (JObj [("source", JStr "odhf-points")])] /\
  In (Map_AddClusters (JObj [("source", JStr "odhf-points")]))
     (effects (AddDataSources Demo.loaded)).
Proof.
  split; [vm_compute; reflexivity |].
  assert (Hsources : objects (array_of (DataSources Demo.odhf)))
    by (repeat constructor).
  destruct (@data_sources_added_with_name_and_data Demo.lib Demo.loaded Demo.odhf
              eq_refl eq_refl Hsources) as (_ & _ & _ & Hcl & _).
  apply (proj2 (Hcl _)).
  exists (JObj [("name", JStr "odhf-points");
                ("data", JObj [("type", JStr "geojson"); ("cluster", JBool true)])]).
  vm_compute. repeat split; auto.
Defined.

(** X2. With no current map, or with a list of data sources (of
    layers) that is missing, not an array or empty, [AddDataSources]
    ([AddLayersWithSources]) makes no call, changes nothing and does
    not throw, even when no map has been built. *)
Theorem missing_lists_are_skipped
  {lib : Collaborators} (w : World) :
  (this_current w = None ->
   AddDataSources w = mkOutcome (Normal tt) w [] /\
   AddLayersWithSources w = mkOutcome (Normal tt) w []) /\
  (forall m, this_current w = Some m ->
             array_of (DataSources m) = [] ->
             AddDataSources w = mkOutcome (Normal tt) w []) /\
  (forall m, this_current w = Some m ->
             array_of (Layers m) = [] ->
             AddLayersWithSources w = mkOutcome (Normal tt) w []).
Proof.
  split; [| split].
  - intros Hcur. unfold AddDataSources, AddLayersWithSources, bind, read; simpl.
    rewrite Hcur. split; reflexivity.
  - intros m Hcur Hnone. rewrite <- (array_of_guarded DataSources) in Hnone.
    remember (guarded DataSources (Some m)) as v eqn:Hv.
    unfold AddDataSources, bind, read; simpl. rewrite Hcur, <- Hv.
    destruct v as [| | b | n | s | l | ps]; try reflexivity.
    simpl in Hnone. subst l. reflexivity.
  - intros m Hcur Hnone. rewrite <- (array_of_guarded Layers) in Hnone.
    remember (guarded Layers (Some m)) as v eqn:Hv.
    unfold AddLayersWithSources, bind, read; simpl. rewrite Hcur, <- Hv.
    destruct v as [| | b | n | s | l | ps]; try reflexivity.
    simpl in Hnone. subst l. reflexivity.
Qed.

Lemma missing_lists_are_skipped_witness :
  let w := set_current (Some Demo.odef) (boot Demo.config Demo.store Demo.live_map) in
  DataSources Demo.odef = JUndefined /\
  this_map w = false /\
  AddDataSources w = mkOutcome (Normal tt) w [].
Proof.
  cbv zeta. split; [reflexivity |]. split; [reflexivity |].
  destruct (@missing_lists_are_skipped Demo.lib
              (set_current (Some Demo.odef)
                           (boot Demo.config Demo.store Demo.live_map)))
    as (_ & Hsources & _).
  exact (Hsources Demo.odef eq_refl eq_refl).
Defined.

(** X10. When a style is ready the map is last asked to restyle the
    layers of the current map from the legend control and the stored
    opacity: the same request a legend change makes in that state. *)
Theorem style_ready_restyles_like_a_legend_change
  {lib : Collaborators} (w : World) (m : MapDefinition) (g : Group)
  (Hready : ready w m g)
  (Hsources : objects (array_of (DataSources m)))
  (Hlayers : objects (array_of (Layers m))) :
  applied (effects (OnMapStyleChanged_Handler w))
  = Some (LayerIDs m, OfControl (legend g), Store_Opacity (Store w)) /\
  applied (effects (OnMapStyleChanged_Handler w))
  = applied (effects (OnLegend_Changed w)).
Proof.
  rewrite (OnMapStyleChanged_runs Hready Hsources Hlayers).
  cbn [effects].
  assert (Hstyle :
            applied
              (Map_SetClickableMap
               :: flat_map source_calls (array_of (DataSources m))
               ++ List.map Map_AddLayer (filter has_source (array_of (Layers m)))
               ++ [Map_ApplyLegendStylesToMapLayers (LayerIDs m) (OfControl (legend g));
                   Map_UpdateMapLayersWithLegendState
                     (LayerIDs m) (OfControl (legend g)) (Store_Opacity (Store w))])
            = Some (LayerIDs m, OfControl (legend g), Store_Opacity (Store w))).
  { change (Map_SetClickableMap :: ?l) with ([Map_SetClickableMap] ++ l).
    change [Map_ApplyLegendStylesToMapLayers (LayerIDs m) (OfControl (legend g));
            Map_UpdateMapLayersWithLegendState
              (LayerIDs m) (OfControl (legend g)) (Store_Opacity (Store w))]
      with ([Map_ApplyLegendStylesToMapLayers (LayerIDs m) (OfControl (legend g))]
            ++ [Map_UpdateMapLayersWithLegendState
                  (LayerIDs m) (OfControl (legend g)) (Store_Opacity (Store w))]).
    rewrite !app_assoc. apply applied_last. }
  rewrite Hstyle. split; [reflexivity |].
  destruct Hready as (Hmap & Hcur & Hgrp & Hmenu).
  try apply current_is_definition in Hcur.
  destruct w as [cfg cur mp grp mn tb st en pd]; simpl in *; subst.
  reflexivity.
Qed.

Lemma style_ready_restyles_like_a_legend_change_witness :
  applied (effects (OnMapStyleChanged_Handler Demo.loaded))
  = Some (JArr [JStr "odhf"],
          OfControl (mkLegend (Legend Demo.odhf) (FullTitle Demo.odhf) JNull
                              (Subtitle Demo.odhf) None),
          JNum 0.75).
Proof.
  assert (Hready : ready Demo.loaded Demo.odhf (fresh_group Demo.odhf Demo.store))
    by (repeat split; vm_compute; reflexivity).
  assert (Hsources : objects (array_of (DataSources Demo.odhf)))
    by (repeat constructor).
  assert (Hlayers : objects (array_of (Layers Demo.odhf)))
    by (repeat constructor).
  exact (proj1 (@style_ready_restyles_like_a_legend_change
                  Demo.lib Demo.loaded _ _ Hready Hsources Hlayers)).
Defined.

(** X11. A data source that is [null] or [undefined] stops the
    style-ready handler at that source: the sources before it have
    been added, the access throws a TypeError, and no layer is attached
    and no styling is applied afterwards. *)
Theorem null_data_source_stops_the_style_handler
  {lib : Collaborators} (w : World) (m : MapDefinition)
  (good rest : list jsval) (bad : jsval)
  (Hmap : this_map w = true)
  (Hcur : this_current w = Some m)
  (Hlist : DataSources m = JArr (good ++ bad :: rest))
  (Hgood : objects good)
  (Hbad : nullish bad = true) :
  OnMapStyleChanged_Handler w
  = mkOutcome (Throw (TypeError "mapDataSources[i]")) w
      (Map_SetClickableMap :: flat_map source_calls good).
Proof.
  unfold OnMapStyleChanged_Handler. etransitivity.
  - eapply bind_runs; [run_step | cbv beta].
    eapply bind_runs; [run_step | cbv beta].
    apply bind_throws.
    unfold AddDataSources. eapply bind_runs; [run_step | cbv beta].
    rewrite Hcur. unfold guarded. rewrite Hlist.
    change (truthy (JArr (good ++ bad :: rest))) with true. cbv iota.
    assert (Hlen : negb (Datatypes.length (good ++ bad :: rest) =? 0)%nat = true).
    { rewrite length_app. simpl. rewrite Nat.add_succ_r. reflexivity. }
    rewrite Hlen.
    apply sources_loop_throws; assumption.
  - reflexivity.
Qed.

Lemma null_data_source_stops_the_style_handler_witness :
  let broken :=
    mkMapDefinition (Style Demo.odhf)
      (JArr [JObj [("name", JStr "a"); ("data", JObj [])]; JNull;
             JObj [("name", JStr "b"); ("data", JObj [])]])
      (Layers Demo.odhf) (Legend Demo.odhf) (FullTitle Demo.odhf)
      (Subtitle Demo.odhf) (LayerIDs Demo.odhf) (ClickableLayersIDs Demo.odhf)
      (Fields Demo.odhf) (TableUrl Demo.odhf) in
  OnMapStyleChanged_Handler (set_current (Some broken) Demo.loaded)
  = mkOutcome (Throw (TypeError "mapDataSources[i]"))
      (set_current (Some broken) Demo.loaded)
      [Map_SetClickableMap; Map_AddSource (JStr "a") (JObj [])].
Proof.
  intros broken.
  assert (Hgood : objects [JObj [("name", JStr "a"); ("data", JObj [])]])
    by (repeat constructor).
  rewrite (@null_data_source_stops_the_style_handler Demo.lib
             (set_current (Some broken) Demo.loaded) broken
             [JObj [("name", JStr "a"); ("data", JObj [])]]
             [JObj [("name", JStr "b"); ("data", JObj [])]]
             JNull eq_refl eq_refl eq_refl Hgood eq_refl).
  reflexivity.
Defined.

(** *** The calls of the constructor *)

Section Startup_trace.

Context {lib : Collaborators}.

(** The constructor up to [AddMap]: the configuration is in place,
    the map definition is selected and nothing else has changed. *)
Lemma constructor_selects (cfg : Config) (w : World) :
  exists w1,
    this_config w1 = cfg /\
    current_value w1 = selected cfg (Store w) /\
    this_map w1 = this_map w /\
    this_group w1 = this_group w /\
    this_menu w1 = this_menu w /\
    this_table w1 = this_table w /\
    Store w1 = Store w /\
    engine w1 = engine w /\
    pending w1 = pending w /\
    forall o,
      (AddMap ;; AddSearch ;; AddBaseControls ;; AddGroup ;; AddMenu ;;
       ReloadTable) w1 = o ->
      constructor cfg w
      = mkOutcome (result o) (world o) (selection_calls cfg (Store w) ++ effects o).
Proof.
  unfold constructor, selected, selection_calls.
  destruct (catalog_property (str (Store_Map (Store w))) (maps cfg))
    as [| m1 | n] eqn:Hkey.
  - exists (set_current (Util_FirstProperty (maps cfg))
                        (set_current_value NoCurrent (set_config cfg w))).
    split; [reflexivity |].
    split; [destruct (Util_FirstProperty (maps cfg)); reflexivity |].
    repeat (split; [reflexivity |]). intros o Ho.
    etransitivity.
    + do 5 (eapply bind_runs; [reflexivity | cbv beta]).
      cbn [current_value set_current_value this_config set_config Store].
      rewrite Hkey.
      eapply bind_runs; [reflexivity | cbv beta].
      eapply bind_runs; [reflexivity | cbv beta].
      cbn [current_value set_current_value this_config set_config].
      subst o. apply outcome_eta.
    + subst o.
      cbn [app this_config current_value set_current_value set_config Store].
      rewrite Hkey. reflexivity.
  - exists (set_current_value (Def m1) (set_config cfg w)).
    repeat (split; [reflexivity |]). intros o Ho.
    etransitivity.
    + do 5 (eapply bind_runs; [reflexivity | cbv beta]).
      cbn [current_value set_current_value this_config set_config Store].
      rewrite Hkey.
      do 2 (eapply bind_runs; [reflexivity | cbv beta]).
      subst o. apply outcome_eta.
    + subst o.
      cbn [app this_config current_value set_current_value set_config Store].
      rewrite Hkey. reflexivity.
  - exists (set_current_value (Inherited n) (set_config cfg w)).
    repeat (split; [reflexivity |]). intros o Ho.
    etransitivity.
    + do 5 (eapply bind_runs; [reflexivity | cbv beta]).
      cbn [current_value set_current_value this_config set_config Store].
      rewrite Hkey.
      do 2 (eapply bind_runs; [reflexivity | cbv beta]).
      subst o. apply outcome_eta.
    + subst o.
      cbn [app this_config current_value set_current_value set_config Store].
      rewrite Hkey. reflexivity.
Qed.

Lemma AddBaseControls_trace (w : World) :
  this_map w = true ->
  AddBaseControls w
  = mkOutcome (Normal tt) w
      [Factory_FullscreenControl (Core_Nls "FullScreen_Title");
       Factory_NavigationControl false true
         (Core_Nls "Navigation_ZoomIn_Title") (Core_Nls "Navigation_ZoomOut_Title");
       Factory_ScaleControl "metric";
       Map_AddControl C_fullscreen (Some "top-left");
       Map_AddControl C_navigation (Some "top-left");
       Map_AddControl C_scale None].
Proof.
  intros Hmap. unfold AddBaseControls.
  etransitivity; [run_seq; reflexivity | reflexivity].
Qed.

Lemma AddBaseControls_throws (w : World) :
  this_map w = false ->
  AddBaseControls w
  = mkOutcome (Throw (TypeError "this.map")) w
      [Factory_FullscreenControl (Core_Nls "FullScreen_Title");
       Factory_NavigationControl false true
         (Core_Nls "Navigation_ZoomIn_Title") (Core_Nls "Navigation_ZoomOut_Title");
       Factory_ScaleControl "metric"].
Proof.
  intros Hmap. unfold AddBaseControls. etransitivity.
  - do 3 (eapply bind_runs; [reflexivity | cbv beta]).
    apply bind_throws. apply the_map_throws. exact Hmap.
  - reflexivity.
Qed.

Lemma AddGroup_trace (w : World) (m : MapDefinition) :
  this_map w = true ->
  this_current w = Some m ->
  AddGroup w
  = mkOutcome (Normal tt) (set_group (Some (fresh_group m (Store w))) w)
      [Factory_LegendControl (Legend m) (FullTitle m) JNull (Subtitle m);
       Factory_OpacityControl (Store_Opacity (Store w));
       Factory_Group
         (mkGroup (mkLegend (Legend m) (FullTitle m) JNull (Subtitle m) None)
                  (mkOpacity (Store_Opacity (Store w)) None None));
       Map_AddControl C_group None;
       On C_legend "LegendChange" H_OnLegend_Changed;
       Opacity_SetTitle (Core_Nls "Toc_Opacity_Title");
       Opacity_SetLabel (Core_Nls "Toc_Opacity_Label");
       On C_opacity "OpacitySliderChanged" H_OnOpacitySlider_Changed].
Proof.
  intros Hmap Hcur. unfold AddGroup.
  etransitivity; [run_seq; reflexivity | reflexivity].
Qed.

Lemma AddMenu_trace (w : World) :
  this_map w = true ->
  AddMenu w
  = mkOutcome (Normal tt) (set_menu true w)
      [Factory_MapsListControl (maps (this_config w));
       Factory_BookmarksControl (bookmarks (this_config w));
       Factory_MenuControl;
       Map_AddControl C_menu (Some "top-left");
       Menu_AddButton "home" (Core_root ++ "assets/globe.png")
         (Core_Nls "Home_Title") H_OnHomeClick;
       Menu_AddPopupButton "maps" (Core_root ++ "assets/layers.png")
         (Core_Nls "Maps_Title") C_maps (Container (engine w));
       Menu_AddPopupButton "bookmarks" (Core_root ++ "assets/bookmarks.png")
         (Core_Nls "Bookmarks_Title") C_bookmarks (Container (engine w));
       Menu_AddButton "help" (Core_root ++ "assets/help.png")
         (Core_Nls "Help_Title") H_OnHelpClick;
       On C_maps "MapSelected" H_OnMapSelected;
       On C_bookmarks "BookmarkSelected" H_OnBookmarkSelected].
Proof.
  intros Hmap. unfold AddMenu.
  etransitivity; [run_seq; reflexivity | reflexivity].
Qed.

Lemma AddMap_fails (w : World) :
  truthy (access_token (this_config w)) = false \/ current_value w = NoCurrent ->
  exists logged,
    AddMap w = mkOutcome (Normal tt) w [Console_error logged] /\
    (truthy (access_token (this_config w)) = false ->
     logged = Thrown (JStr token_message)).
Proof.
  intros Hfail.
  destruct (truthy (access_token (this_config w))) eqn:Htoken.
  - destruct Hfail as [Hfail | Hcur]; [discriminate Hfail |].
    exists (TypeError "this.current"). split; [| intros H; discriminate H].
    unfold AddMap, try_catch.
    match goal with
    | |- context [result (?body w)] =>
        assert (Hbody : body w = mkOutcome (Throw (TypeError "this.current")) w [])
    end.
    { etransitivity.
      - eapply bind_runs; [reflexivity | cbv beta].
        rewrite Htoken.
        eapply bind_runs; [reflexivity | cbv beta].
        apply bind_throws. unfold the_current.
        eapply bind_runs; [reflexivity | cbv beta].
        rewrite Hcur. reflexivity.
      - reflexivity. }
    cbv zeta. rewrite Hbody. reflexivity.
  - exists (Thrown (JStr token_message)). split; [| reflexivity].
    unfold AddMap, try_catch.
    match goal with
    | |- context [result (?body w)] =>
        assert (Hbody : body w
                        = mkOutcome (Throw (Thrown (JStr token_message))) w [])
    end.
    { etransitivity.
      - eapply bind_runs; [reflexivity | cbv beta].
        rewrite Htoken.
        apply bind_throws. reflexivity.
      - reflexivity. }
    cbv zeta. rewrite Hbody. reflexivity.
Qed.

End Startup_trace.

Section Startup_whole.

Context {lib : Collaborators}.

Lemma constructor_trace (cfg : Config) (w : World) (m : MapDefinition)
      (rows : list jsval) :
  truthy (access_token cfg) = true ->
  selected cfg (Store w) = Def m ->
  items (search cfg) = JArr rows ->
  objects rows ->
  exists w',
    constructor cfg w
    = mkOutcome (Normal tt) w'
        (selection_calls cfg (Store w)
         ++ startup_calls cfg (Store w) (engine w) m
              (JArr (List.map search_item_of rows))) /\
    ready w' m (fresh_group m (Store w)) /\
    this_table w' = this_table w /\
    pending w' = pending w ++ [(Core_root ++ str (TableUrl m))%string] /\
    Store w' = Store w.
Proof.
  intros Htoken Hsel Hitems Hrows.
  destruct (constructor_selects cfg w)
    as (w1 & Hcfg & Hcur & Hmap & Hgrp & Hmenu & Htb & Hst & Heng & Hpd & Hrun).
  rewrite Hsel in Hcur. apply definition_is_current in Hcur.
  assert (HA := @AddMap_runs w1 m). rewrite Hcfg in HA.
  specialize (HA Htoken Hcur).
  assert (HS := @AddSearch_runs lib (set_map true w1) rows).
  cbn [this_config set_map] in HS. rewrite Hcfg in HS.
  specialize (HS Hitems Hrows).
  set (its := JArr (List.map search_item_of rows)) in *.
  set (w2 := set_config (set_items its cfg) (set_map true w1)) in *.
  assert (HB := @AddBaseControls_trace lib w2 eq_refl).
  assert (HG := @AddGroup_trace lib w2 m eq_refl Hcur).
  set (w3 := set_group (Some (fresh_group m (Store w2))) w2) in *.
  assert (HM := @AddMenu_trace lib w3 eq_refl).
  assert (HR := @ReloadTable_runs lib (set_menu true w3) m Hcur).
  eexists. split.
  - erewrite Hrun.
    2:{ etransitivity.
        - eapply bind_runs; [exact HA | cbv beta].
          eapply bind_runs; [exact HS | cbv beta].
          eapply bind_runs; [exact HB | cbv beta].
          eapply bind_runs; [exact HG | cbv beta].
          eapply bind_runs; [exact HM | cbv beta].
          exact HR.
        - reflexivity. }
    cbn [result world effects].
    f_equal. f_equal. unfold startup_calls.
    subst w3 w2.
    cbn [app Store engine this_config set_config set_map set_group set_menu
         set_items maps bookmarks credentials].
    rewrite Hst, Heng. reflexivity.
  - cbn [result world effects].
    subst w3 w2. split.
    + repeat split; try reflexivity; try assumption.
      * cbn. rewrite Hst. reflexivity.
    + cbn [this_table pending Store set_pending set_menu set_group set_config set_map].
      rewrite Htb, Hpd, Hst. repeat split; reflexivity.
Qed.

End Startup_whole.

Lemma arrays_are_objects (rows : list jsval) : arrays rows -> objects rows.
Proof.
  intros H. induction H as [| x rows (elts & ->) _ IH]; constructor.
  - reflexivity.
  - exact IH.
Qed.

(** X3. With an access token, a map definition that startup selects
    (the catalog entry under the stored id, or the first entry when
    the catalog has nothing under that id and no object inherits that
    name) and search rows that are arrays, the constructor returns
    normally and has made exactly the calls of [AddMap], [AddSearch],
    [AddBaseControls], [AddGroup], [AddMenu] and [ReloadTable], in this
    order: the map is created at the stored centre (longitude first)
    and zoom, the opacity control at the stored opacity.  It leaves
    the application ready, the store as it was, no table yet and one
    table request outstanding, for the table of the selected map. *)
Theorem startup_makes_these_calls
  {lib : Collaborators} (cfg : Config) (st : StoreT) (e : Engine)
  (m : MapDefinition) (rows : list jsval)
  (Htoken : truthy (access_token cfg) = true)
  (Hselected : selected cfg st = Def m)
  (Hitems : items (search cfg) = JArr rows)
  (Hrows : arrays rows) :
  let o := constructor cfg (boot cfg st e) in
  result o = Normal tt /\
  effects o
  = selection_calls cfg st
    ++ startup_calls cfg st e m (JArr (List.map search_item_of rows)) /\
  ready (world o) m (fresh_group m st) /\
  Store (world o) = st /\
  this_table (world o) = None /\
  pending (world o) = [(Core_root ++ str (TableUrl m))%string].
Proof.
  destruct (@constructor_trace lib cfg (boot cfg st e) m rows
              Htoken Hselected Hitems (arrays_are_objects Hrows))
    as (w' & Hrun & Hready & Htb & Hpd & Hst).
  cbv zeta. rewrite Hrun. cbn [result world effects].
  repeat split; try assumption; try reflexivity; apply Hready.
Qed.

Lemma startup_makes_these_calls_witness :
  let o := constructor Demo.config (boot Demo.config Demo.store Demo.live_map) in
  selected Demo.config Demo.store = Def Demo.odhf /\
  result o = Normal tt /\
  effects o
  = Set_current (Some Demo.odhf)
    :: startup_calls Demo.config Demo.store Demo.live_map Demo.odhf
         (JArr [Demo.montreal]) /\
  pending (world o) = ["/data/odhf.json"].
Proof.
  assert (Hrows : arrays [Demo.montreal_row])
    by (repeat constructor; eexists; reflexivity).
  destruct (@startup_makes_these_calls Demo.lib Demo.config Demo.store
              Demo.live_map Demo.odhf [Demo.montreal_row]
              eq_refl eq_refl eq_refl Hrows)
    as (Hres & Heff & _ & _ & _ & Hpd).
  cbv zeta. split; [reflexivity |]. split; [exact Hres |]. split; [| exact Hpd].
  rewrite Heff. reflexivity.
Defined.

(** X16. At startup the map definition stored under the persisted id
    is made current when the catalog has an entry of its own under that
    id.  When it has none and the id is not a name that every object
    inherits, the first entry of the catalog is made current instead,
    and with an access token and search rows that are arrays the
    constructor returns normally.  When it has none and the id is an
    inherited name, what is inherited under that name stays current
    and no map definition is. *)
Theorem startup_selects_own_entry_or_first
  {lib : Collaborators} (cfg : Config) (w : World) :
  let o := constructor cfg w in
  let activeMapId := str (Store_Map (Store w)) in
  (forall m,
      assoc activeMapId (maps cfg) = Some m ->
      this_current (world o) = Some m) /\
  (assoc activeMapId (maps cfg) = None ->
   inherited activeMapId = false ->
   this_current (world o) = Util_FirstProperty (maps cfg)) /\
  (assoc activeMapId (maps cfg) = None ->
   inherited activeMapId = true ->
   current_value (world o) = Inherited activeMapId /\
   this_current (world o) = None) /\
  (forall first rest rows,
      assoc activeMapId (maps cfg) = None ->
      inherited activeMapId = false ->
      maps cfg = first :: rest ->
      truthy (access_token cfg) = true ->
      items (search cfg) = JArr rows ->
      arrays rows ->
      result o = Normal tt /\ this_current (world o) = Some (snd first)).
Proof.
  cbv zeta. split; [| split; [| split]].
  - intros m Hkey. apply definition_is_current.
    rewrite constructor_current. unfold selected, catalog_property.
    rewrite Hkey. reflexivity.
  - intros Hkey Hinh. unfold this_current.
    rewrite constructor_current. unfold selected, catalog_property.
    rewrite Hkey, Hinh. destruct (Util_FirstProperty (maps cfg)); reflexivity.
  - intros Hkey Hinh. unfold this_current.
    rewrite constructor_current. unfold selected, catalog_property.
    rewrite Hkey, Hinh. split; reflexivity.
  - intros [k0 m0] rest rows Hkey Hinh Hmaps Htoken Hitems Hrows.
    assert (Hsel : selected cfg (Store w) = Def m0).
    { unfold selected, catalog_property. rewrite Hkey, Hinh, Hmaps. reflexivity. }
    destruct (@constructor_trace lib cfg w m0 rows
                Htoken Hsel Hitems (arrays_are_objects Hrows))
      as (w' & Hrun & (_ & Hcur & _) & _).
    rewrite Hrun. split; [reflexivity | exact Hcur].
Qed.

Lemma startup_selects_own_entry_or_first_witness :
  let removed := mkStore (JStr "a-map-that-is-gone") JNull JNull JNull JNull in
  let o := constructor Demo.config (boot Demo.config removed Demo.live_map) in
  assoc "a-map-that-is-gone" (maps Demo.config) = None /\
  inherited "a-map-that-is-gone" = false /\
  result o = Normal tt /\
  this_current (world o) = Some Demo.odhf /\
  this_current (world (constructor Demo.config
                         (boot Demo.config
                               (mkStore (JStr "odef") JNull JNull JNull JNull)
                               Demo.live_map)))
  = Some Demo.odef.
Proof.
  cbv zeta. split; [reflexivity |]. split; [reflexivity |].
  destruct (@startup_selects_own_entry_or_first Demo.lib Demo.config
              (boot Demo.config
                    (mkStore (JStr "a-map-that-is-gone") JNull JNull JNull JNull)
                    Demo.live_map))
    as (_ & _ & _ & Hfirst).
  assert (Hrows : arrays [Demo.montreal_row])
    by (repeat constructor; eexists; reflexivity).
  destruct (Hfirst ("odhf", Demo.odhf) [("odef", Demo.odef)] [Demo.montreal_row]
                   eq_refl eq_refl eq_refl eq_refl eq_refl Hrows)
    as (Hres & Hcur).
  split; [exact Hres |]. split; [exact Hcur |].
  destruct (@startup_selects_own_entry_or_first Demo.lib Demo.config
              (boot Demo.config
                    (mkStore (JStr "odef") JNull JNull JNull JNull)
                    Demo.live_map))
    as (Hfound & _).
  exact (Hfound Demo.odef eq_refl).
Defined.

(** The store after a settled pan, a settled zoom, an opacity change
    and a map selection. *)
Lemma store_after_a_session {lib : Collaborators} (w : World)
      (m : MapDefinition) (g : Group)
      (c : LngLat) (z v id : jsval) (m' : MapDefinition) :
  ready w m g ->
  Store (world (run [MoveEnd c; ZoomEnd z; OpacitySliderChanged v;
                     MapSelected id m'] w))
  = mkStore id (lat c) (lng c) z v.
Proof.
  intros (Hmap & Hcur & Hgrp & Hmenu).
  try apply current_is_definition in Hcur.
  destruct w as [cfg cur mp grp mn tb st en pd]; simpl in *; subst.
  reflexivity.
Qed.

(** X4. What a session persists is what the next startup restores:
    after a settled pan to [c], a settled zoom to [z], an opacity
    change to [v] and the selection of a map of the catalog, a
    constructor run on the store left behind creates the map with the
    style of that map definition at centre [[c.lng, c.lat]] and zoom
    [z], creates the opacity control at [v] and makes that map
    definition current. *)
Theorem next_startup_restores_the_session
  {lib : Collaborators} (w : World) (m : MapDefinition) (g : Group)
  (cfg : Config) (e : Engine) (rows : list jsval)
  (c : LngLat) (z v id : jsval) (m' : MapDefinition)
  (Hready : ready w m g)
  (Htoken : truthy (access_token cfg) = true)
  (Hcatalog : assoc (str id) (maps cfg) = Some m')
  (Hitems : items (search cfg) = JArr rows)
  (Hrows : objects rows) :
  let session := run [MoveEnd c; ZoomEnd z; OpacitySliderChanged v;
                      MapSelected id m'] w in
  let o := constructor cfg (boot cfg (Store (world session)) e) in
  result o = Normal tt /\
  this_current (world o) = Some m' /\
  In (Factory_Map "map"
        (member (member (credentials cfg) "mapbox") "accessToken")
        (Style m') (JArr [lng c; lat c]) z)
     (effects o) /\
  In (Factory_OpacityControl v) (effects o) /\
  In (Net_JSON (Core_root ++ str (TableUrl m'))) (effects o).
Proof.
  cbv zeta. rewrite (store_after_a_session c z v id m' Hready).
  assert (Hselected : selected cfg (mkStore id (lat c) (lng c) z v) = Def m').
  { unfold selected, catalog_property. cbn [Store_Map].
    rewrite Hcatalog. reflexivity. }
  destruct (@constructor_trace lib cfg
              (boot cfg (mkStore id (lat c) (lng c) z v) e) m' rows
              Htoken Hselected Hitems Hrows)
    as (w' & Hrun & (_ & Hcur & _) & _).
  rewrite Hrun. cbn [result world effects boot Store engine].
  split; [reflexivity |]. split; [exact Hcur |].
  unfold startup_calls. cbn [Store_Lng Store_Lat Store_Zoom Store_Opacity].
  split; [| split]; apply in_or_app; right.
  - left. reflexivity.
  - do 17 right. left. reflexivity.
  - do 35 right. left. reflexivity.
Qed.

Lemma next_startup_restores_the_session_witness :
  let session := run [MoveEnd (mkLngLat (JNum 46.8) (JNum (-71.2)));
                      ZoomEnd (JNum 11);
                      OpacitySliderChanged (JNum 0.5);
                      MapSelected (JStr "odef") Demo.odef] Demo.loaded in
  let o := constructor Demo.config
             (boot Demo.config (Store (world session)) Demo.live_map) in
  this_current (world o) = Some Demo.odef /\
  In (Factory_Map "map" (JStr "pk.token") (JStr "mapbox://styles/odef")
        (JArr [JNum (-71.2); JNum 46.8]) (JNum 11))
     (effects o) /\
  In (Factory_OpacityControl (JNum 0.5)) (effects o).
Proof.
  assert (Hready : ready Demo.loaded Demo.odhf (fresh_group Demo.odhf Demo.store))
    by (repeat split; vm_compute; reflexivity).
  assert (Hrows : objects [Demo.montreal_row]) by (repeat constructor).
  destruct (@next_startup_restores_the_session Demo.lib Demo.loaded _ _
              Demo.config Demo.live_map [Demo.montreal_row]
              (mkLngLat (JNum 46.8) (JNum (-71.2))) (JNum 11) (JNum 0.5)
              (JStr "odef") Demo.odef Hready eq_refl eq_refl eq_refl Hrows)
    as (_ & Hcur & Hmap & Hop & _).
  cbv zeta. split; [exact Hcur |]. split; [exact Hmap | exact Hop].
Defined.

(** X5. When the map cannot be made (no access token, or nothing to
    select: the catalog is empty and has nothing, own or inherited,
    under the stored id), [AddMap] logs one error and the constructor
    still runs [AddSearch] on search rows that are arrays, but then
    throws a TypeError at the first use of the missing map in
    [AddBaseControls]: no control is added to a map, no legend group
    and no menu are made and no table is requested. *)
Theorem startup_without_a_map_throws
  {lib : Collaborators} (cfg : Config) (st : StoreT) (e : Engine)
  (rows : list jsval)
  (Hfail : truthy (access_token cfg) = false \/ selected cfg st = NoCurrent)
  (Hitems : items (search cfg) = JArr rows)
  (Hrows : arrays rows) :
  let o := constructor cfg (boot cfg st e) in
  result o = Throw (TypeError "this.map") /\
  (exists logged,
      effects o
      = selection_calls cfg st
        ++ [Console_error logged;
            Factory_SearchControl (JArr (List.map search_item_of rows))
              (Core_Nls "Search_Placeholder") (Core_Nls "Search_Title");
            Search_Place "search";
            On C_search "Change" H_OnSearchChange;
            Search_SetInputId "lode-search";
            Factory_FullscreenControl (Core_Nls "FullScreen_Title");
            Factory_NavigationControl false true
              (Core_Nls "Navigation_ZoomIn_Title")
              (Core_Nls "Navigation_ZoomOut_Title");
            Factory_ScaleControl "metric"] /\
      (truthy (access_token cfg) = false ->
       logged = Thrown (JStr token_message))) /\
  this_map (world o) = false /\
  this_group (world o) = None /\
  this_menu (world o) = false /\
  this_table (world o) = None /\
  pending (world o) = [].
Proof.
  destruct (constructor_selects cfg (boot cfg st e))
    as (w1 & Hcfg & Hcur & Hmap & Hgrp & Hmenu & Htb & Hst & Heng & Hpd & Hrun).
  cbn [boot this_map this_group this_menu this_table Store engine pending]
    in Hcur, Hmap, Hgrp, Hmenu, Htb, Hst, Heng, Hpd.
  destruct (@AddMap_fails w1) as (logged & HA & Hlogged).
  { rewrite Hcfg, Hcur. exact Hfail. }
  rewrite Hcfg in Hlogged.
  assert (HS := @AddSearch_runs lib w1 rows). rewrite Hcfg in HS.
  specialize (HS Hitems (arrays_are_objects Hrows)).
  set (w2 := set_config (set_items (JArr (List.map search_item_of rows)) cfg) w1)
    in *.
  assert (HB := @AddBaseControls_throws lib w2 Hmap).
  cbv zeta. erewrite Hrun.
  2:{ etransitivity.
      - eapply bind_runs; [exact HA | cbv beta].
        eapply bind_runs; [exact HS | cbv beta].
        apply bind_throws. exact HB.
      - reflexivity. }
  cbn [result world effects]. split; [reflexivity |].
  split; [exists logged; split; [reflexivity | exact Hlogged] |].
  subst w2. cbn. repeat split; assumption.
Qed.

Lemma startup_without_a_map_throws_witness :
  let o := constructor Demo.config_no_token
             (boot Demo.config_no_token Demo.store Demo.live_map) in
  truthy (access_token Demo.config_no_token) = false /\
  result o = Throw (TypeError "this.map") /\
  pending (world o) = [].
Proof.
  assert (Hrows : arrays [Demo.montreal_row])
    by (repeat constructor; eexists; reflexivity).
  destruct (@startup_without_a_map_throws Demo.lib Demo.config_no_token
              Demo.store Demo.live_map [Demo.montreal_row]
              (or_introl eq_refl) eq_refl Hrows)
    as (Hres & _ & _ & _ & _ & _ & Hpd).
  cbv zeta. split; [reflexivity |]. split; [exact Hres | exact Hpd].
Defined.

Section Search_errors.

Context {lib : Collaborators}.

Lemma array_map_search_item_throws (good rest : list jsval) (bad : jsval)
      (w : World) :
  objects good ->
  nullish bad = true ->
  array_map search_item (good ++ bad :: rest) w
  = mkOutcome (Throw (TypeError "i")) w [].
Proof.
  intros Hgood Hbad. induction Hgood as [| i good Hi _ IH].
  - simpl. apply bind_throws.
    unfold search_item. apply bind_throws.
    unfold index_or_throw. destruct bad; try discriminate Hbad; reflexivity.
  - simpl app. simpl array_map. etransitivity.
    + eapply bind_runs; [apply search_item_runs; exact Hi | cbv beta].
      apply bind_throws. exact IH.
    + reflexivity.
Qed.

End Search_errors.

(** X6. [AddSearch] fails as a whole: when the search items are not an
    array, or when one of the rows is [null] or [undefined], it throws
    a TypeError before it has replaced the items of the configuration
    and before any search control is made.  A row that is an array
    never makes it throw, however short: the entries it lacks come out
    [undefined]. *)
Theorem malformed_search_rows_fail_before_any_effect
  {lib : Collaborators} (w : World) :
  ((forall rows, items (search (this_config w)) <> JArr rows) ->
   AddSearch w
   = mkOutcome (Throw (TypeError "this.config.search.items.map")) w []) /\
  (forall good bad rest,
      items (search (this_config w)) = JArr (good ++ bad :: rest) ->
      objects good ->
      nullish bad = true ->
      AddSearch w = mkOutcome (Throw (TypeError "i")) w []) /\
  (forall row w0,
      search_item (JArr row) w0
      = mkOutcome
          (Normal
             (JObj [("id", nth 0 row JUndefined);
                    ("name", nth 1 row JUndefined);
                    ("label", JStr (str (nth 1 row JUndefined) ++ " ("
                                    ++ str (nth 0 row JUndefined) ++ ")"));
                    ("extent", JArr [JArr [nth 2 row JUndefined;
                                           nth 3 row JUndefined];
                                     JArr [nth 4 row JUndefined;
                                           nth 5 row JUndefined]])]))
          w0 []).
Proof.
  split; [| split].
  - intros Hnot. unfold AddSearch. etransitivity.
    + eapply bind_runs; [reflexivity | cbv beta].
      apply bind_throws.
      destruct (items (search (this_config w))) as [| | b | n | s | l | ps];
        try reflexivity.
      exfalso. exact (Hnot l eq_refl).
    + reflexivity.
  - intros good bad rest Hitems Hgood Hbad. unfold AddSearch. etransitivity.
    + eapply bind_runs; [reflexivity | cbv beta].
      apply bind_throws. rewrite Hitems.
      apply array_map_search_item_throws; assumption.
    + reflexivity.
  - intros row w0. reflexivity.
Qed.

Lemma malformed_search_rows_fail_before_any_effect_witness :
  let cfg := set_items (JArr [Demo.montreal_row; JNull]) Demo.config in
  let w := boot cfg Demo.store Demo.live_map in
  AddSearch w = mkOutcome (Throw (TypeError "i")) w [] /\
  items (search (this_config (world (AddSearch w))))
  = JArr [Demo.montreal_row; JNull].
Proof.
  intros cfg w.
  assert (Hgood : objects [Demo.montreal_row]) by (repeat constructor).
  destruct (@malformed_search_rows_fail_before_any_effect Demo.lib w)
    as (_ & Hnull & _).
  rewrite (Hnull [Demo.montreal_row] JNull [] eq_refl Hgood eq_refl).
  split; reflexivity.
Defined.

(** X12. A bookmark selection hides the popup of the bookmarks and
    fits the map to the extent the item carries, without animation and
    without padding; an item without an extent passes [undefined] on.
    On an item that is [null] or [undefined] the popup is hidden and
    the handler then throws a TypeError without fitting the map. *)
Theorem bookmark_selected_fits_the_map
  {lib : Collaborators} (w : World) (item : jsval)
  (Hmenu : this_menu w = true) (Hmap : this_map w = true) :
  (nullish item = false ->
   OnBookmarkSelected_Handler item w
   = mkOutcome (Normal tt) w
       [Popup_Hide "bookmarks";
        Map_FitBounds (member item "extent")
          (Some (JObj [("animate", JBool false)]))]) /\
  (nullish item = false -> assoc "extent" (own_properties item) = None ->
   effects (OnBookmarkSelected_Handler item w)
   = [Popup_Hide "bookmarks";
      Map_FitBounds JUndefined (Some (JObj [("animate", JBool false)]))]) /\
  (nullish item = true ->
   OnBookmarkSelected_Handler item w
   = mkOutcome (Throw (TypeError "ev.item")) w [Popup_Hide "bookmarks"]).
Proof.
  assert (Hrun : nullish item = false ->
                 OnBookmarkSelected_Handler item w
                 = mkOutcome (Normal tt) w
                     [Popup_Hide "bookmarks";
                      Map_FitBounds (member item "extent")
                        (Some (JObj [("animate", JBool false)]))]).
  { intros Hitem. unfold OnBookmarkSelected_Handler.
    etransitivity; [run_seq; reflexivity | reflexivity]. }
  split; [exact Hrun |]. split.
  - intros Hitem Hnone. rewrite (Hrun Hitem). cbn [effects].
    destruct item as [| | b | n | s | l | ps]; try reflexivity.
    simpl in Hnone. unfold member. rewrite Hnone. reflexivity.
  - intros Hitem. unfold OnBookmarkSelected_Handler. etransitivity.
    + eapply bind_runs; [run_step | cbv beta].
      eapply bind_runs; [run_step | cbv beta].
      eapply bind_runs; [run_step | cbv beta].
      apply bind_throws. unfold get_or_throw, get. rewrite Hitem. reflexivity.
    + reflexivity.
Qed.

Lemma bookmark_selected_fits_the_map_witness :
  OnBookmarkSelected_Handler Demo.montreal Demo.loaded
  = mkOutcome (Normal tt) Demo.loaded
      [Popup_Hide "bookmarks";
       Map_FitBounds (JArr [JArr [JNum (-73.97); JNum 45.41];
                            JArr [JNum (-73.47); JNum 45.70]])
         (Some (JObj [("animate", JBool false)]))] /\
  OnBookmarkSelected_Handler JNull Demo.loaded
  = mkOutcome (Throw (TypeError "ev.item")) Demo.loaded [Popup_Hide "bookmarks"].
Proof.
  destruct (@bookmark_selected_fits_the_map Demo.lib Demo.loaded Demo.montreal
              eq_refl eq_refl) as (Hfit & _).
  destruct (@bookmark_selected_fits_the_map Demo.lib Demo.loaded JNull
              eq_refl eq_refl) as (_ & _ & Hnull).
  split; [rewrite (Hfit eq_refl); reflexivity | exact (Hnull eq_refl)].
Defined.

(** X13. [ReloadTable] empties the table node first and leaves
    [this.table] as it is.  With a current map it then requests the
    address made of the root and the table address of that map (the
    text "undefined" when the map has none) and one more request is
    outstanding; with [this.current] unset it throws a TypeError after
    the node has been emptied, and requests nothing; with an inherited
    value in [this.current], which has no table address, it requests
    the address made of the root and the text "undefined". *)
Theorem reload_table_empties_then_requests
  {lib : Collaborators} (w : World) :
  (forall m, this_current w = Some m ->
             ReloadTable w
             = mkOutcome (Normal tt)
                 (set_pending (pending w ++ [(Core_root ++ str (TableUrl m))%string]) w)
                 [Dom_Empty "table"; Net_JSON (Core_root ++ str (TableUrl m))]) /\
  (forall m, this_current w = Some m -> TableUrl m = JUndefined ->
             effects (ReloadTable w)
             = [Dom_Empty "table"; Net_JSON (Core_root ++ "undefined")]) /\
  (current_value w = NoCurrent ->
   ReloadTable w
   = mkOutcome (Throw (TypeError "this.current")) w [Dom_Empty "table"]) /\
  (forall n, current_value w = Inherited n ->
             ReloadTable w
             = mkOutcome (Normal tt)
                 (set_pending (pending w ++ [(Core_root ++ "undefined")%string]) w)
                 [Dom_Empty "table"; Net_JSON (Core_root ++ "undefined")]) /\
  this_table (world (ReloadTable w)) = this_table w.
Proof.
  split; [| split; [| split; [| split]]].
  - intros m Hcur. apply ReloadTable_runs. exact Hcur.
  - intros m Hcur Hurl. rewrite (ReloadTable_runs w Hcur). cbn [effects].
    rewrite Hurl. reflexivity.
  - intros Hcur. unfold ReloadTable. etransitivity.
    + eapply bind_runs; [reflexivity | cbv beta].
      apply bind_throws. unfold the_current.
      eapply bind_runs; [reflexivity | cbv beta].
      rewrite Hcur. reflexivity.
    + reflexivity.
  - intros n Hcur. unfold ReloadTable. etransitivity.
    + eapply bind_runs; [reflexivity | cbv beta].
      eapply bind_runs.
      { unfold the_current. eapply bind_runs; [reflexivity | cbv beta].
        rewrite Hcur. reflexivity. }
      cbv beta. run_seq. reflexivity.
    + reflexivity.
  - revert w. change (keeps this_table ReloadTable). unfold ReloadTable. frame.
Qed.

Lemma reload_table_empties_then_requests_witness :
  effects (ReloadTable Demo.loaded) = [Dom_Empty "table"; Net_JSON "/data/odhf.json"] /\
  ReloadTable (boot Demo.config Demo.store Demo.live_map)
  = mkOutcome (Throw (TypeError "this.current"))
      (boot Demo.config Demo.store Demo.live_map) [Dom_Empty "table"].
Proof.
  destruct (@reload_table_empties_then_requests Demo.lib Demo.loaded)
    as (Hrun & _).
  destruct (@reload_table_empties_then_requests Demo.lib
              (boot Demo.config Demo.store Demo.live_map))
    as (_ & _ & Hnone & _).
  split; [rewrite (Hrun Demo.odhf eq_refl); reflexivity | exact (Hnone eq_refl)].
Defined.

(** X14. Between a map selection and the completion of the request it
    issues, [this.table] is still the table built for the map shown
    before: a search selection made in between is applied to that
    table (and styles and fits the map as usual). *)
Theorem search_between_switch_and_completion_uses_the_old_table
  {lib : Collaborators} (w : World) (m : MapDefinition) (g : Group)
  (t : TableWidget) (id : jsval) (m' : MapDefinition) (item : jsval)
  (Hready : ready w m g)
  (Htable : this_table w = Some t)
  (Hitem : nullish item = false) :
  let switched := world (OnMapSelected_Handler id m' w) in
  this_current switched = Some m' /\
  this_table switched = Some t /\
  result (OnSearchChange_Handler item switched) = Normal tt /\
  In (Table_UpdateTable item) (effects (OnSearchChange_Handler item switched)).
Proof.
  destruct Hready as (Hmap & Hcur & Hgrp & Hmenu).
  assert (Hsw : exists w',
             world (OnMapSelected_Handler id m' w) = w' /\
             this_current w' = Some m' /\
             this_table w' = Some t /\
             this_map w' = true).
  { eexists. split; [reflexivity |].
    try apply current_is_definition in Hcur.
  destruct w as [cfg cur mp grp mn tb st en pd]; simpl in *; subst.
    repeat split; reflexivity. }
  destruct Hsw as (w' & -> & Hcur' & Htb' & Hmap').
  cbv zeta. split; [exact Hcur' |]. split; [exact Htb' |].
  assert (Hrun : exists es,
             OnSearchChange_Handler item w'
             = mkOutcome (Normal tt) w' (Table_UpdateTable item :: es)).
  { eexists. unfold OnSearchChange_Handler.
    etransitivity; [run_seq; reflexivity | reflexivity]. }
  destruct Hrun as (es & ->). split; [reflexivity | left; reflexivity].
Qed.

Lemma search_between_switch_and_completion_uses_the_old_table_witness :
  let switched := world (OnMapSelected_Handler (JStr "odef") Demo.odef Demo.loaded) in
  this_current switched = Some Demo.odef /\
  this_table switched = Some (mkTable Demo.odhf (JStr "rows of odhf")) /\
  result (OnSearchChange_Handler Demo.montreal switched) = Normal tt.
Proof.
  assert (Hready : ready Demo.loaded Demo.odhf (fresh_group Demo.odhf Demo.store))
    by (repeat split; vm_compute; reflexivity).
  destruct (@search_between_switch_and_completion_uses_the_old_table
              Demo.lib Demo.loaded _ _
              (mkTable Demo.odhf (JStr "rows of odhf"))
              (JStr "odef") Demo.odef Demo.montreal Hready eq_refl eq_refl)
    as (Hcur & Htb & Hres & _).
  cbv zeta. split; [exact Hcur |]. split; [exact Htb | exact Hres].
Defined.

Lemma added_sources_app (a b : list Effect) :
  added_sources (a ++ b) = added_sources a ++ added_sources b.
Proof.
  induction a as [| e a IH]; [reflexivity |].
  destruct e; simpl; rewrite IH; reflexivity.
Qed.

Lemma added_sources_layers (ls : list jsval) :
  added_sources (List.map Map_AddLayer ls) = [].
Proof. induction ls as [| l ls IH]; [reflexivity | exact IH]. Qed.

(** X15. After a map selection, the next style-ready event works on
    the selected map only: the sources added and the layers attached
    are those of the selected map definition, and the map is restyled
    for its layer ids, from the legend reloaded with its legend, at the
    opacity stored before the selection. *)
Theorem style_ready_after_a_switch_uses_the_new_map
  {lib : Collaborators} (w : World) (m : MapDefinition) (g : Group)
  (id : jsval) (m' : MapDefinition)
  (Hready : ready w m g)
  (Hsources : objects (array_of (DataSources m')))
  (Hlayers : objects (array_of (Layers m'))) :
  let o := run [MapSelected id m'; StyleChanged] w in
  added_sources (effects o)
  = added_sources (flat_map source_calls (array_of (DataSources m'))) /\
  (forall l, In (Map_AddLayer l) (effects o) <->
             In l (array_of (Layers m')) /\ has_source l = true) /\
  exists lg,
    applied (effects o) = Some (LayerIDs m', OfControl lg, Store_Opacity (Store w)) /\
    lg_config lg = Legend m'.
Proof.
  destruct Hready as (Hmap & Hcur & Hgrp & Hmenu).
  assert (Hsel : exists w' g',
             OnMapSelected_Handler id m' w
             = mkOutcome (Normal tt) w'
                 [Popup_Hide "maps"; Store_set K_Map id; Set_current (Some m');
                  Map_SetStyle (Style m'); Dom_Empty "table";
                  Net_JSON (Core_root ++ str (TableUrl m'));
                  Legend_Reload (Legend m') (FullTitle m') (Subtitle m')] /\
             ready w' m' g' /\
             lg_config (legend g') = Legend m' /\
             Store_Opacity (Store w') = Store_Opacity (Store w)).
  { eexists. eexists.
    try apply current_is_definition in Hcur.
  destruct w as [cfg cur mp grp mn tb st en pd]; simpl in *; subst.
    split; [reflexivity |]. repeat split; reflexivity. }
  destruct Hsel as (w' & g' & Hrun & Hready' & Hlg & Hop).
  pose proof (OnMapStyleChanged_runs Hready' Hsources Hlayers) as Hstyle.
  assert (Ho : run [MapSelected id m'; StyleChanged] w
               = mkOutcome (Normal tt) w'
                   ([Popup_Hide "maps"; Store_set K_Map id; Set_current (Some m');
                     Map_SetStyle (Style m'); Dom_Empty "table";
                     Net_JSON (Core_root ++ str (TableUrl m'));
                     Legend_Reload (Legend m') (FullTitle m') (Subtitle m')]
                    ++ (Map_SetClickableMap
                        :: flat_map source_calls (array_of (DataSources m'))
                        ++ List.map Map_AddLayer
                             (filter has_source (array_of (Layers m')))
                        ++ [Map_ApplyLegendStylesToMapLayers
                              (LayerIDs m') (OfControl (legend g'));
                            Map_UpdateMapLayersWithLegendState
                              (LayerIDs m') (OfControl (legend g'))
                              (Store_Opacity (Store w'))]))).
  { simpl run. etransitivity.
    - eapply bind_runs.
      + unfold try_catch, dispatch. rewrite Hrun. reflexivity.
      + cbv beta. eapply bind_runs.
        * unfold try_catch, dispatch. rewrite Hstyle. reflexivity.
        * reflexivity.
    - cbn [app]. rewrite !app_nil_r. reflexivity. }
  cbv zeta. rewrite Ho. cbn [effects]. split; [| split].
  - rewrite added_sources_app. cbn [added_sources app].
    rewrite !added_sources_app, added_sources_layers. cbn [added_sources].
    rewrite !app_nil_r. reflexivity.
  - intros l. unfold has_source. split.
    + intros H. apply in_app_or in H. destruct H as [H | H].
      * simpl in H. repeat (destruct H as [H | H]; [discriminate H |]).
        destruct H.
      * destruct H as [H | H]; [discriminate H |].
        apply in_app_or in H. destruct H as [H | H].
        -- apply in_flat_map in H. destruct H as (d & _ & H).
           exfalso. exact (source_calls_add_no_layer _ _ H).
        -- apply in_app_or in H. destruct H as [H | H].
           ++ apply in_map_iff in H. destruct H as (l' & Heq & H).
              injection Heq as ->. apply filter_In in H. exact H.
           ++ simpl in H. destruct H as [H | [H | []]]; discriminate H.
    + intros [Hin Hsrc]. apply in_or_app. right. right.
      apply in_or_app. right. apply in_or_app. left.
      apply in_map. apply filter_In. split; assumption.
  - exists (legend g'). split; [| exact Hlg].
    rewrite <- Hop.
    change (Map_SetClickableMap :: ?l) with ([Map_SetClickableMap] ++ l).
    change [Map_ApplyLegendStylesToMapLayers (LayerIDs m') (OfControl (legend g'));
            Map_UpdateMapLayersWithLegendState
              (LayerIDs m') (OfControl (legend g')) (Store_Opacity (Store w'))]
      with ([Map_ApplyLegendStylesToMapLayers (LayerIDs m') (OfControl (legend g'))]
            ++ [Map_UpdateMapLayersWithLegendState
                  (LayerIDs m') (OfControl (legend g')) (Store_Opacity (Store w'))]).
    rewrite !app_assoc. apply applied_last.
Qed.

Lemma style_ready_after_a_switch_uses_the_new_map_witness :
  let o := run [MapSelected (JStr "odef") Demo.odef; StyleChanged] Demo.loaded in
  added_sources (effects o) = [] /\
  In (Map_AddLayer (JObj [("id", JStr "odef"); ("source", JStr "composite")]))
     (effects o).
Proof.
  assert (Hready : ready Demo.loaded Demo.odhf (fresh_group Demo.odhf Demo.store))
    by (repeat split; vm_compute; reflexivity).
  assert (Hsources : objects (array_of (DataSources Demo.odef)))
    by (repeat constructor).
  assert (Hlayers : objects (array_of (Layers Demo.odef)))
    by (repeat constructor).
  destruct (@style_ready_after_a_switch_uses_the_new_map
              Demo.lib Demo.loaded _ _ (JStr "odef") Demo.odef
              Hready Hsources Hlayers) as (Hadded & Hattached & _).
  cbv zeta. split; [rewrite Hadded; reflexivity |].
  apply (proj2 (Hattached _)). split; [left; reflexivity | reflexivity].
Defined.
